(** * QR-code API: URL/filename codec, link builder and endpoints

    A shallow embedding of [app/utils/common.py], [app/services/qr_service.py]
    and [app/routers/qr_code.py].

    - A Python [str] is a list of code points, [bytes] a list of octets, both
      over [Z].
    - A call that may raise returns a [result]; the endpoints, which read and
      write the artifact directory, thread a [filesystem] through a small
      state-and-exception monad.
    - The collaborators outside the repository that have no fixed behaviour
      here (the [validators] package, [urllib.parse], the [qrcode] renderer)
      are the fields of the class [Externals]; [base64]/[binascii], UTF-8 and
      [os.path] are modelled concretely, after CPython.
    - Logging is left out, and so is the bearer token that every endpoint
      takes and does not look at. *)

From Stdlib Require Import String Ascii.
From Stdlib Require Import ZArith List Bool Lia.
Import ListNotations.
Open Scope Z_scope.

(** ** Python values *)

Definition str := list Z.
Definition bytes := list Z.

(** An ASCII literal as a Python string. *)
Definition lit (x : string) : str :=
  map (fun a => Z.of_N (N_of_ascii a)) (list_ascii_of_string x).
Arguments lit x%_string.

(** [ord(c)] of an ASCII character. *)
Definition ord (c : ascii) : Z := Z.of_N (N_of_ascii c).
Arguments ord c%_char.

Fixpoint str_eqb (a b : str) : bool :=
  match a, b with
  | [], [] => true
  | x :: a', y :: b' => (x =? y) && str_eqb a' b'
  | _, _ => false
  end.

(** [x in [a; b; ...]] on strings. *)
Definition str_in (x : str) (l : list str) : bool := existsb (str_eqb x) l.

(** [len(s)] *)
Definition len {A} (s : list A) : Z := Z.of_nat (length s).

(** ["=" * n]: the empty string when [n <= 0]. *)
Definition str_mul (s : str) (n : Z) : str := concat (repeat s (Z.to_nat n)).

(** [s[:-4]]: all but the last four characters, empty when [len(s) <= 4]. *)
Definition drop_last4 (s : str) : str := firstn (length s - 4) s.

Fixpoint startswith (prefix s : str) : bool :=
  match prefix, s with
  | [], _ => true
  | p :: prefix', c :: s' => (p =? c) && startswith prefix' s'
  | _ :: _, [] => false
  end.

(** [s.endswith(suffix)] *)
Definition endswith (suffix s : str) : bool := startswith (rev suffix) (rev s).

(** [s.rstrip(c)] for a single character [c]. *)
Fixpoint rstrip (c : Z) (s : str) : str :=
  match s with
  | [] => []
  | x :: r =>
      match rstrip c r with
      | [] => if x =? c then [] else [x]
      | r' => x :: r'
      end
  end.

(** ** Exceptions *)

Inductive exn : Type :=
| ValueError (msg : string)
| binascii_Error (msg : string)
| UnicodeEncodeError
| UnicodeDecodeError
| OSError (msg : string)
| HTTPException (status_code : Z) (detail : string).

Inductive result (A : Type) : Type :=
| Ok (a : A)
| Raise (e : exn).
Arguments Ok {A} a.
Arguments Raise {A} e.

Definition bind {A B} (r : result A) (k : A -> result B) : result B :=
  match r with
  | Ok a => k a
  | Raise e => Raise e
  end.

Declare Scope py_scope.
Delimit Scope py_scope with py.
Notation "x <- r ;; k" := (bind r (fun x => k))
  (at level 61, r at next level, right associativity) : py_scope.
Open Scope py_scope.

Definition is_ok {A} (r : result A) : bool :=
  match r with Ok _ => true | Raise _ => false end.

(** The error names of the specification. *)
Definition InvalidURL : exn := ValueError "Invalid URL provided".
Definition NotFound : exn := HTTPException 404 "QR code not found".

Definition MalformedIdentifier (e : exn) : Prop :=
  match e with
  | binascii_Error _ | UnicodeDecodeError => True
  | ValueError msg => msg = "string argument should contain only ASCII characters"%string
  | _ => False
  end.

(** ** UTF-8 ([str.encode('utf-8')], [bytes.decode('utf-8')], both strict) *)

Module utf8.

(** The octets of one code point; [None] for a surrogate (or a value that is
    no code point), which the strict encoder refuses. *)
Definition encode_char (c : Z) : option bytes :=
  if c <? 0 then None
  else if c <? 0x80 then Some [c]
  else if c <? 0x800 then Some [0xC0 + c / 64; 0x80 + c mod 64]
  else if (0xD800 <=? c) && (c <? 0xE000) then None
  else if c <? 0x10000 then
    Some [0xE0 + c / 4096; 0x80 + (c / 64) mod 64; 0x80 + c mod 64]
  else if c <? 0x110000 then
    Some [0xF0 + c / 262144; 0x80 + (c / 4096) mod 64;
          0x80 + (c / 64) mod 64; 0x80 + c mod 64]
  else None.

Fixpoint encode (s : str) : result bytes :=
  match s with
  | [] => Ok []
  | c :: s' =>
      match encode_char c with
      | None => Raise UnicodeEncodeError
      | Some bs => rest <- encode s' ;; Ok (bs ++ rest)
      end
  end.

(** A continuation octet, 10xxxxxx. *)
Definition cont (b : Z) : bool := (0x80 <=? b) && (b <? 0xC0).

Definition push (c : Z) (r : result str) : result str :=
  s <- r ;; Ok (c :: s).

(** The strict decoder: truncated and overlong sequences, surrogates and
    values above U+10FFFF raise. *)
Fixpoint decode (bs : bytes) : result str :=
  match bs with
  | [] => Ok []
  | b0 :: r0 =>
      if (0 <=? b0) && (b0 <? 0x80) then push b0 (decode r0)
      else if (0xC0 <=? b0) && (b0 <? 0xE0) then
        match r0 with
        | b1 :: r1 =>
            let c := (b0 - 0xC0) * 64 + (b1 - 0x80) in
            if cont b1 && (0x80 <=? c) then push c (decode r1)
            else Raise UnicodeDecodeError
        | _ => Raise UnicodeDecodeError
        end
      else if (0xE0 <=? b0) && (b0 <? 0xF0) then
        match r0 with
        | b1 :: b2 :: r2 =>
            let c := (b0 - 0xE0) * 4096 + (b1 - 0x80) * 64 + (b2 - 0x80) in
            if cont b1 && cont b2 && (0x800 <=? c)
               && negb ((0xD800 <=? c) && (c <? 0xE000))
            then push c (decode r2)
            else Raise UnicodeDecodeError
        | _ => Raise UnicodeDecodeError
        end
      else if (0xF0 <=? b0) && (b0 <? 0xF8) then
        match r0 with
        | b1 :: b2 :: b3 :: r3 =>
            let c := (b0 - 0xF0) * 262144 + (b1 - 0x80) * 4096
                     + (b2 - 0x80) * 64 + (b3 - 0x80) in
            if cont b1 && cont b2 && cont b3
               && (0x10000 <=? c) && (c <? 0x110000)
            then push c (decode r3)
            else Raise UnicodeDecodeError
        | _ => Raise UnicodeDecodeError
        end
      else Raise UnicodeDecodeError
  end.

End utf8.

(** ** [binascii]: the base-64 transform of CPython (3.7 and later) *)

Module binascii.

Definition BASE64_PAD : Z := ord "=".

Definition table_b2a_base64 : str :=
  lit "ABCDEFGHIJKLMNOPQRSTUVWXYZabcdefghijklmnopqrstuvwxyz0123456789+/".

(** The character of a sextet. *)
Definition b2a (v : Z) : Z := nth (Z.to_nat v) table_b2a_base64 0.

(** The sextet of a character, [None] outside the alphabet. *)
Definition table_a2b_base64 (c : Z) : option Z :=
  if (65 <=? c) && (c <=? 90) then Some (c - 65)
  else if (97 <=? c) && (c <=? 122) then Some (c - 97 + 26)
  else if (48 <=? c) && (c <=? 57) then Some (c - 48 + 52)
  else if c =? 43 then Some 62
  else if c =? 47 then Some 63
  else None.

(** [b2a_base64(data, newline=False)]: three octets give four characters,
    a last group of one or two octets is padded with [=]. *)
Fixpoint b2a_base64 (data : bytes) : bytes :=
  match data with
  | [] => []
  | [b1] => [b2a (b1 / 4); b2a (b1 mod 4 * 16); BASE64_PAD; BASE64_PAD]
  | [b1; b2] =>
      [b2a (b1 / 4); b2a (b1 mod 4 * 16 + b2 / 16); b2a (b2 mod 16 * 4);
       BASE64_PAD]
  | b1 :: b2 :: b3 :: rest =>
      b2a (b1 / 4) :: b2a (b1 mod 4 * 16 + b2 / 16)
      :: b2a (b2 mod 16 * 4 + b3 / 64) :: b2a (b3 mod 64)
      :: b2a_base64 rest
  end.

(** [a2b_base64(data)] in its default, non-strict mode: the loop over the
    input with the position in the current quad, the bits left over from the
    previous character and the count of pads seen since the last data
    character.  A character outside the alphabet is skipped; a pad is
    skipped unless it completes a quad, and then the rest of the input is
    not read.  (The first message carries the number of data characters in
    CPython; it is left out here.) *)
Fixpoint a2b_loop (quad_pos leftchar pads : Z) (ascii : bytes) (bin : bytes)
  : result bytes :=
  match ascii with
  | [] =>
      if quad_pos =? 0 then Ok bin
      else if quad_pos =? 1 then
        Raise (binascii_Error "Invalid base64-encoded string: number of data characters cannot be 1 more than a multiple of 4")
      else Raise (binascii_Error "Incorrect padding")
  | this_ch :: rest =>
      if this_ch =? BASE64_PAD then
        if 2 <=? quad_pos then
          if 4 <=? quad_pos + (pads + 1) then Ok bin
          else a2b_loop quad_pos leftchar (pads + 1) rest bin
        else a2b_loop quad_pos leftchar pads rest bin
      else
        match table_a2b_base64 this_ch with
        | None => a2b_loop quad_pos leftchar pads rest bin
        | Some v =>
            if quad_pos =? 0 then a2b_loop 1 v 0 rest bin
            else if quad_pos =? 1 then
              a2b_loop 2 (v mod 16) 0 rest (bin ++ [leftchar * 4 + v / 16])
            else if quad_pos =? 2 then
              a2b_loop 3 (v mod 4) 0 rest (bin ++ [leftchar * 16 + v / 4])
            else a2b_loop 0 0 0 rest (bin ++ [leftchar * 64 + v])
        end
  end.

Definition a2b_base64 (data : bytes) : result bytes := a2b_loop 0 0 0 data [].

End binascii.

(** ** [base64] *)

Module base64.

(** [bytes.maketrans(b'+/', b'-_')] and its inverse. *)
Definition _urlsafe_encode_translation (c : Z) : Z :=
  if c =? 43 then 45 else if c =? 47 then 95 else c.
Definition _urlsafe_decode_translation (c : Z) : Z :=
  if c =? 45 then 43 else if c =? 95 then 47 else c.

Definition urlsafe_b64encode (s : bytes) : bytes :=
  map _urlsafe_encode_translation (binascii.b2a_base64 s).

(** A [str] argument is first encoded as ASCII. *)
Definition _bytes_from_decode_data (s : str) : result bytes :=
  if forallb (fun c => (0 <=? c) && (c <? 128)) s then Ok s
  else Raise (ValueError "string argument should contain only ASCII characters").

Definition urlsafe_b64decode (s : str) : result bytes :=
  b <- _bytes_from_decode_data s ;;
  binascii.a2b_base64 (map _urlsafe_decode_translation b).

End base64.

(** ** Collaborators outside the repository *)

(** [validators_url s] is the truth value of [validators.url(s)] (a failure
    object is falsy).  [urlparse] may raise; [urlunparse] reassembles the
    parsed parts.  [qrcode_make data fill_color back_color box_size] stands
    for [QRCode(version=1, box_size=..., border=5)], [add_data], [make(fit=True)]
    and [make_image]; it returns the image or raises. *)
Class Externals : Type := {
  validators_url : str -> bool;
  ParseResult : Type;
  urlparse : str -> result ParseResult;
  urlunparse : ParseResult -> str;
  Image : Type;
  qrcode_make : str -> str -> str -> Z -> result Image
}.

(** ** [app/config.py] *)

(** [QR_DIRECTORY] holds [str(Path(...))]: no trailing separator and no
    leading [./]. *)
Record Config : Type := {
  QR_DIRECTORY : str;
  FILL_COLOR : str;
  BACK_COLOR : str;
  SERVER_BASE_URL : str;
  SERVER_DOWNLOAD_FOLDER : str
}.

(** The values used when the environment sets none of the variables. *)
Definition default_config : Config := {|
  QR_DIRECTORY := lit "qr_codes";
  FILL_COLOR := lit "red";
  BACK_COLOR := lit "white";
  SERVER_BASE_URL := lit "http://localhost:8000";
  SERVER_DOWNLOAD_FOLDER := lit "downloads"
|}.

(** ** [app/utils/common.py] *)

Section Common.
Context `{Externals}.

Definition validate_and_sanitize_url (url_str : str) : result str :=
  if validators_url url_str then
    parsed_url <- urlparse url_str ;;
    Ok (urlunparse parsed_url)
  else Raise (ValueError "Invalid URL provided").

Definition encode_url_to_filename (url : str) : result str :=
  sanitized_url <- validate_and_sanitize_url url ;;
  utf8_url <- utf8.encode sanitized_url ;;
  let encoded_bytes := base64.urlsafe_b64encode utf8_url in
  decoded <- utf8.decode encoded_bytes ;;
  Ok (rstrip (ord "=") decoded).

End Common.

(** [padding_needed] as the decoder computes it. *)
Definition padding_needed (encoded_str : str) : Z := 4 - (len encoded_str mod 4).

(** The string handed to the base-64 decoder. *)
Definition repadded (encoded_str : str) : str :=
  let padding_needed := padding_needed encoded_str in
  if negb (padding_needed =? 0)
  then encoded_str ++ str_mul (lit "=") padding_needed
  else encoded_str.

Definition decode_filename_to_url (encoded_str : str) : result str :=
  decoded_bytes <- base64.urlsafe_b64decode (repadded encoded_str) ;;
  utf8.decode decoded_bytes.

(** A HATEOAS link, the dictionary with the keys [rel], [href], [action] and
    [type]. *)
Record Link : Type := {
  rel : str;
  href : str;
  action : str;
  type : str
}.

Definition generate_links (action qr_filename base_api_url download_url : str)
  : result (list Link) :=
  let links := [] in
  links <- (if str_in action [lit "list"; lit "create"] then
              original_url <- decode_filename_to_url (drop_last4 qr_filename) ;;
              Ok (links ++ [ {| rel := lit "view"; href := download_url;
                                action := lit "GET"; type := lit "image/png" |} ])
            else Ok links) ;;
  let links :=
    if str_in action [lit "list"; lit "create"; lit "delete"] then
      let delete_url := base_api_url ++ lit "/qr-codes/" ++ qr_filename in
      links ++ [ {| rel := lit "delete"; href := delete_url;
                    action := lit "DELETE"; type := lit "application/json" |} ]
    else links in
  Ok links.

(** ** The artifact directory *)

Module os_path.

(** [posixpath.join(a, b)] *)
Definition join (a b : str) : str :=
  if startswith (lit "/") b then b
  else if (len a =? 0) || endswith (lit "/") a then a ++ b
  else a ++ lit "/" ++ b.

End os_path.

(** [directory / name] of [pathlib], on a [QR_DIRECTORY] as stored in
    [Config] and a name without a separator. *)
Definition Path_truediv (directory name : str) : str := os_path.join directory name.

Section Store.
Context `{Externals}.

Inductive node : Type :=
| File (content : Image)
| Directory.

(** The file system: the nodes by their path, as the process sees them from
    its working directory. *)
Definition filesystem : Type := list (str * node).

Fixpoint lookup (fs : filesystem) (path : str) : option node :=
  match fs with
  | [] => None
  | (p, n) :: fs' => if str_eqb p path then Some n else lookup fs' path
  end.

(** [Path.exists()], [os.path.exists] *)
Definition exists_ (fs : filesystem) (path : str) : bool :=
  match lookup fs path with Some _ => true | None => false end.

(** [Path.is_file()] *)
Definition is_file (fs : filesystem) (path : str) : bool :=
  match lookup fs path with Some (File _) => true | _ => false end.

Definition is_dir (fs : filesystem) (path : str) : bool :=
  match lookup fs path with Some Directory => true | _ => false end.

(** The part of [path] before its last separator; empty (the working
    directory) when it has none. *)
Fixpoint parent (path : str) : str :=
  match path with
  | [] => []
  | c :: rest =>
      if existsb (Z.eqb 47) rest then c :: parent rest else []
  end.

Definition unlink (fs : filesystem) (path : str) : filesystem :=
  filter (fun e => negb (str_eqb (fst e) path)) fs.

(** The name of [path] inside [directory], when it lies directly in it. *)
Definition child_name (directory path : str) : option str :=
  if startswith (directory ++ lit "/") path then
    let name := skipn (length directory + 1) path in
    if negb (len name =? 0) && negb (existsb (Z.eqb 47) name)
    then Some name else None
  else None.

Fixpoint children (directory : str) (fs : filesystem) : list str :=
  match fs with
  | [] => []
  | (p, _) :: fs' =>
      match child_name directory p with
      | Some name => name :: children directory fs'
      | None => children directory fs'
      end
  end.

(** State and exceptions: a computation on the file system returns or raises
    and leaves the file system it has reached. *)
Definition M (A : Type) : Type := filesystem -> result A * filesystem.

Definition ret {A} (a : A) : M A := fun fs => (Ok a, fs).
Definition raise {A} (e : exn) : M A := fun fs => (Raise e, fs).
Definition lift {A} (r : result A) : M A := fun fs => (r, fs).
Definition mbind {A B} (m : M A) (k : A -> M B) : M B :=
  fun fs =>
    match m fs with
    | (Ok a, fs') => k a fs'
    | (Raise e, fs') => (Raise e, fs')
    end.

(** [os.listdir] *)
Definition os_listdir (directory : str) : M (list str) :=
  fun fs =>
    if is_dir fs directory then (Ok (children directory fs), fs)
    else (Raise (OSError "No such file or directory"), fs).

(** [os.remove] *)
Definition os_remove (path : str) : M unit :=
  fun fs =>
    if is_file fs path then (Ok tt, unlink fs path)
    else (Raise (OSError "Not a file"), fs).

(** [img.save(path)]: creates or replaces the file at [path]. *)
Definition save (img : Image) (path : str) : M unit :=
  fun fs =>
    if is_dir fs path then (Raise (OSError "Is a directory"), fs)
    else if (len (parent path) =? 0) || is_dir fs (parent path) then
      (Ok tt, (path, File img) :: unlink fs path)
    else (Raise (OSError "No such file or directory"), fs).

End Store.

Declare Scope fs_scope.
Delimit Scope fs_scope with fs.
Notation "x <~ m ;; k" := (mbind m (fun x => k))
  (at level 61, m at next level, right associativity) : fs_scope.
Notation "m ;;; k" := (mbind m (fun _ => k))
  (at level 61, right associativity) : fs_scope.
Open Scope fs_scope.

(** ** [app/services/qr_service.py] *)

Section QrService.
Context `{Externals}.

(** [try: return [f for f in os.listdir(...) if f.endswith('.png')]];
    both handlers log and re-raise. *)
Definition list_qr_codes (directory_path : str) : M (list str) :=
  names <~ os_listdir directory_path ;;
  ret (filter (endswith (lit ".png")) names).

(** The handler logs and re-raises. *)
Definition generate_qr_code (data path fill_color back_color : str) (size : Z)
  : M unit :=
  img <~ lift (qrcode_make data fill_color back_color size) ;;
  save img path.

Definition delete_qr_code (file_name directory : str) : M bool :=
  let file_path := os_path.join directory file_name in
  fun fs =>
    if exists_ fs file_path then
      (os_remove file_path ;;; ret true) fs
    else ret false fs.

(** The default of the parameter [directory]. *)
Definition delete_qr_code_directory : str := lit "qr_codes".

End QrService.

(** ** [app/routers/qr_code.py] *)

(** Modelled from the spec: [app/schema.py] is not among the sources; the
    request body is [{url, size}] and the response body
    [{message, qr_code_url, links}] (specification, section 6). *)
Record QRCodeRequest : Type := {
  url : str;
  size : Z
}.

(** Modelled from the spec: [app/schema.py] is not among the sources; see
    [QRCodeRequest]. *)
Record QRCodeResponse : Type := {
  message : str;
  qr_code_url : str;
  links : list Link
}.

(** What an endpoint returns: a [JSONResponse] built by hand, a response model
    (or a list of them) sent with the status code of the route, or a bare
    [Response]. *)
Inductive response : Type :=
| JSONResponse (status_code : Z) (content : QRCodeResponse)
| Model (status_code : Z) (body : QRCodeResponse)
| ModelList (status_code : Z) (body : list QRCodeResponse)
| Response (status_code : Z).

Section Routers.
Context `{Externals} (cfg : Config).

(** [mapM]: the list comprehension of the listing, left to right; the first
    exception ends it. *)
Fixpoint comprehension {A B} (f : A -> result B) (l : list A) : result (list B) :=
  match l with
  | [] => Ok []
  | a :: l' => (b <- f a ;; bs <- comprehension f l' ;; Ok (b :: bs))%py
  end.

Definition create_qr_code (request : QRCodeRequest) : M response :=
  encoded_url <~ lift (encode_url_to_filename (url request)) ;;
  let qr_filename := encoded_url ++ lit ".png" in
  let qr_code_full_path := Path_truediv (QR_DIRECTORY cfg) qr_filename in
  let qr_code_download_url :=
    SERVER_BASE_URL cfg ++ lit "/" ++ SERVER_DOWNLOAD_FOLDER cfg ++ lit "/"
    ++ qr_filename in
  links <~ lift (generate_links (lit "create") qr_filename (SERVER_BASE_URL cfg)
                   qr_code_download_url) ;;
  fun fs =>
    if exists_ fs qr_code_full_path then
      ret (JSONResponse 200
             {| message := lit "QR code already exists.";
                qr_code_url := qr_code_download_url;
                links := links |}) fs
    else
      (generate_qr_code (url request) qr_code_full_path (FILL_COLOR cfg)
         (BACK_COLOR cfg) (size request) ;;;
       ret (Model 201
              {| message := lit "QR code created successfully.";
                 qr_code_url := qr_code_download_url;
                 links := links |})) fs.

Definition list_entry (qr_file : str) : result QRCodeResponse :=
  (qr_code_url <- decode_filename_to_url (drop_last4 qr_file) ;;
   links <- generate_links (lit "list") qr_file (SERVER_BASE_URL cfg)
              (SERVER_BASE_URL cfg ++ lit "/" ++ SERVER_DOWNLOAD_FOLDER cfg
               ++ lit "/" ++ qr_file) ;;
   Ok {| message := lit "QR code available";
         qr_code_url := qr_code_url;
         links := links |})%py.

Definition list_qr_codes_endpoint : M response :=
  qr_files <~ list_qr_codes (QR_DIRECTORY cfg) ;;
  match qr_files with
  | [] => ret (ModelList 200 [])
  | _ =>
      responses <~ lift (comprehension list_entry qr_files) ;;
      ret (ModelList 200 responses)
  end.

Definition delete_qr_code_endpoint (qr_filename : str) : M response :=
  let qr_code_path := Path_truediv (QR_DIRECTORY cfg) qr_filename in
  fun fs =>
    if negb (is_file fs qr_code_path) then
      raise (HTTPException 404 "QR code not found") fs
    else
      (delete_qr_code qr_code_path delete_qr_code_directory ;;;
       ret (Response 204)) fs.

End Routers.

(** ** Definitions used by the proofs *)

(** The sextets of a byte string, without the padding. *)
Fixpoint sextets (data : bytes) : list Z :=
  match data with
  | [] => []
  | [b1] => [b1 / 4; b1 mod 4 * 16]
  | [b1; b2] => [b1 / 4; b1 mod 4 * 16 + b2 / 16; b2 mod 16 * 4]
  | b1 :: b2 :: b3 :: rest =>
      b1 / 4 :: b1 mod 4 * 16 + b2 / 16 :: b2 mod 16 * 4 + b3 / 64 :: b3 mod 64
      :: sextets rest
  end.

(** The number of pads the encoder writes. *)
Fixpoint b2a_pads (data : bytes) : nat :=
  match data with
  | [] => 0
  | [_] => 2
  | [_; _] => 1
  | _ :: _ :: _ :: rest => b2a_pads rest
  end.

(** The number of pads that brings the stripped encoding of [data] back to a
    multiple of four: four when it already is one. *)
Fixpoint repad_count (data : bytes) : nat :=
  match data with
  | [] => 4
  | [_] => 2
  | [_; _] => 1
  | _ :: _ :: _ :: rest => repad_count rest
  end.

(** The identifier of a byte string: its URL-safe base-64 characters without
    the padding. *)
Definition identifier_of (data : bytes) : str :=
  map base64._urlsafe_encode_translation (map binascii.b2a (sextets data)).

(** [p] on every number below [n]. *)
Fixpoint all_below (n : nat) (p : Z -> bool) : bool :=
  match n with
  | O => true
  | S k => p (Z.of_nat k) && all_below k p
  end.

Definition is_octet (b : Z) : Prop := 0 <= b < 256.
Definition is_ascii (c : Z) : Prop := 0 <= c < 128.
Definition is_sextet (v : Z) : Prop := 0 <= v < 64.

(** A character of the URL-safe alphabet, [A-Z a-z 0-9 - _]. *)
Definition urlsafe_char (c : Z) : bool :=
  ((65 <=? c) && (c <=? 90)) || ((97 <=? c) && (c <=? 122))
  || ((48 <=? c) && (c <=? 57)) || (c =? 45) || (c =? 95).

(** What the table demands of the character of the sextet [v]. *)
Definition sextet_ok (v : Z) : bool :=
  let c := binascii.b2a v in
  let u := base64._urlsafe_encode_translation c in
  match binascii.table_a2b_base64 c with
  | Some w => (w =? v) && negb (u =? 61) && negb (c =? 61) && urlsafe_char u
              && (base64._urlsafe_decode_translation u =? c)
  | None => false
  end.

(** A data character for the decoder: one of [A-Z a-z 0-9 - _ + /]. *)
Definition b64_data (c : Z) : bool :=
  match binascii.table_a2b_base64 (base64._urlsafe_decode_translation c) with
  | Some _ => true
  | None => false
  end.

(** The number of data characters of a string. *)
Definition data_count (s : str) : Z := len (filter b64_data s).

(** What the decoder makes of [n] pads that follow [q] data characters of an
    unfinished quad, with [bin] decoded so far. *)
Definition pad_outcome (q : Z) (n : nat) (bin : bytes) : result bytes :=
  if q =? 0 then Ok bin
  else if q =? 1 then
    Raise (binascii_Error "Invalid base64-encoded string: number of data characters cannot be 1 more than a multiple of 4")
  else if q =? 2 then
    if (2 <=? n)%nat then Ok bin else Raise (binascii_Error "Incorrect padding")
  else Ok bin.

(** Following the specification's words (section 4.2): a string over the
    URL-safe alphabet, padded with [=] to a length that is a multiple of
    four; base-64 never needs more than two pads. *)
Definition valid_urlsafe_base64 (s : str) : bool :=
  (len s mod 4 =? 0)
  && forallb urlsafe_char (rstrip 61 s)
  && (len s - len (rstrip 61 s) <=? 2).

(** A sample of the collaborators, on which the model runs on concrete
    requests: a validator that accepts the [http] and [https] strings without
    a space, a parser that keeps the text as it is, and a renderer whose image
    records the data and the box size. *)
Definition sample_validators_url (s : str) : bool :=
  (startswith (lit "http://") s || startswith (lit "https://") s)
  && negb (existsb (Z.eqb 32) s).

Definition sample_externals : Externals := {|
  validators_url := sample_validators_url;
  ParseResult := str;
  urlparse := fun s => Ok s;
  urlunparse := fun p => p;
  Image := str * Z;
  qrcode_make := fun data _ _ box_size => Ok (data, box_size)
|}.

(** A store under the default configuration with the artifact of the
    identifier [YWJj] and a second file whose name is no identifier. *)
Definition sample_image : @Image sample_externals := (lit "abc", 10).

Definition corrupt_store : @filesystem sample_externals :=
  [ (lit "qr_codes", Directory);
    (lit "qr_codes/YWJj.png", File sample_image);
    (lit "qr_codes/a.png", File sample_image) ].

Section EndpointDefinitions.
Context `{Externals} (cfg : Config).

(** Where [create_qr_code] stores the artifact of an identifier, and the
    download URL it reports. *)
Definition artifact_path (id : str) : str :=
  Path_truediv (QR_DIRECTORY cfg) (id ++ lit ".png").

Definition download_url_of (id : str) : str :=
  SERVER_BASE_URL cfg ++ lit "/" ++ SERVER_DOWNLOAD_FOLDER cfg ++ lit "/"
  ++ (id ++ lit ".png").

(** The entry of a listed file whose name decodes to [u]. *)
Definition listed (qr_file u : str) : QRCodeResponse :=
  {| message := lit "QR code available";
     qr_code_url := u;
     links :=
       [ {| rel := lit "view";
            href := SERVER_BASE_URL cfg ++ lit "/" ++ SERVER_DOWNLOAD_FOLDER cfg
                    ++ lit "/" ++ qr_file;
            action := lit "GET"; type := lit "image/png" |};
         {| rel := lit "delete";
            href := SERVER_BASE_URL cfg ++ lit "/qr-codes/" ++ qr_file;
            action := lit "DELETE"; type := lit "application/json" |} ] |}.

End EndpointDefinitions.

(** ** Definitions of the further properties *)

(** A well-formed store directory: not empty and without a trailing
    separator, as [str(Path(...))] is for every directory but the root. *)
Definition proper_directory (d : str) : Prop :=
  d <> [] /\ endswith (lit "/") d = false.

(** A plain file name: not empty and without a separator. *)
Definition plain_name (name : str) : Prop :=
  name <> [] /\ existsb (Z.eqb 47) name = false.

Section CreatedLinks.
Context (cfg : Config).

(** The links of a created artifact. *)
Definition created_links (id : str) : list Link :=
  [ {| rel := lit "view"; href := download_url_of cfg id;
       action := lit "GET"; type := lit "image/png" |};
    {| rel := lit "delete";
       href := SERVER_BASE_URL cfg ++ lit "/qr-codes/" ++ (id ++ lit ".png");
       action := lit "DELETE"; type := lit "application/json" |} ].

End CreatedLinks.

(** ** [create_access_token] *)

(** [datetime], [timedelta] and python-jose are outside the repository:
    [timedelta_bool] is the truth value of a [timedelta] (false for the zero
    one), [datetime_add] is [+] and may raise, [of_datetime] makes a claim
    value of a point in time and [jwt_encode claims key algorithm] is
    [jwt.encode]. *)
Class TokenExternals : Type := {
  Any : Type;
  datetime : Type;
  timedelta : Type;
  timedelta_minutes : Z -> timedelta;
  timedelta_bool : timedelta -> bool;
  datetime_add : datetime -> timedelta -> result datetime;
  of_datetime : datetime -> Any;
  jwt_encode : list (str * Any) -> str -> str -> result str
}.

(** The part of [app/config.py] that the token uses. *)
Record TokenConfig : Type := {
  SECRET_KEY : str;
  ALGORITHM : str
}.

Definition default_token_config : TokenConfig := {|
  SECRET_KEY := lit "secret-getenvkey";
  ALGORITHM := lit "HS256"
|}.

Section Dict.
Context {V : Type}.

(** A dictionary with string keys, in insertion order. *)
Definition dict : Type := list (str * V).

Fixpoint dict_get (d : dict) (k : str) : option V :=
  match d with
  | [] => None
  | (k', v) :: d' => if str_eqb k' k then Some v else dict_get d' k
  end.

(** [d[k] = v], as [d.update({k: v})] does it: the value of a key that is
    there is replaced where it stands, a new key goes to the end. *)
Fixpoint dict_set (d : dict) (k : str) (v : V) : dict :=
  match d with
  | [] => [(k, v)]
  | (k', v') :: d' =>
      if str_eqb k' k then (k', v) :: d' else (k', v') :: dict_set d' k v
  end.

End Dict.

Section Token.
Context `{TokenExternals} (tcfg : TokenConfig).

(** [expires_delta or timedelta(minutes=15)] *)
Definition delta_or_default (expires_delta : option timedelta) : timedelta :=
  match expires_delta with
  | Some d => if timedelta_bool d then d else timedelta_minutes 15
  | None => timedelta_minutes 15
  end.

(** The dictionary handed to [jwt.encode]; [utcnow] is what
    [datetime.utcnow()] returns. *)
Definition access_token_claims (data : dict) (expires_delta : option timedelta)
    (utcnow : datetime) : result dict :=
  let to_encode := data in
  expire <- datetime_add utcnow (delta_or_default expires_delta) ;;
  Ok (dict_set to_encode (lit "exp") (of_datetime expire)).

Definition create_access_token (data : dict) (expires_delta : option timedelta)
    (utcnow : datetime) : result str :=
  to_encode <- access_token_claims data expires_delta utcnow ;;
  jwt_encode to_encode (SECRET_KEY tcfg) (ALGORITHM tcfg).

End Token.

(** A configuration with an absolute store directory, and a store under it
    with the artifact of the identifier [YWJj]. *)
Definition absolute_config : Config := {|
  QR_DIRECTORY := lit "/data/qr_codes";
  FILL_COLOR := lit "red";
  BACK_COLOR := lit "white";
  SERVER_BASE_URL := lit "http://localhost:8000";
  SERVER_DOWNLOAD_FOLDER := lit "downloads"
|}.

Definition absolute_store : @filesystem sample_externals :=
  [ (lit "/data/qr_codes", Directory);
    (lit "/data/qr_codes/YWJj.png", File sample_image) ].


(** The store under the default configuration before the first Create. *)
Definition empty_store : @filesystem sample_externals :=
  [ (lit "qr_codes", Directory) ].

(** ** Proofs: strings *)

Ltac dlia := Z.div_mod_to_equations; lia.

Lemma str_eqb_eq (a b : str) : str_eqb a b = true <-> a = b.
Proof.
  revert b; induction a as [|x a IH]; intros [|y b]; simpl; split;
    try congruence; try reflexivity.
  - rewrite andb_true_iff, Z.eqb_eq, IH. intros [-> ->]; reflexivity.
  - intros E; injection E as -> ->. rewrite Z.eqb_refl. apply IH; reflexivity.
Qed.

Lemma str_eqb_refl (a : str) : str_eqb a a = true.
Proof. apply str_eqb_eq; reflexivity. Qed.

Lemma str_eqb_neq (a b : str) : a <> b -> str_eqb a b = false.
Proof.
  intros N. destruct (str_eqb a b) eqn:E; [|reflexivity].
  apply str_eqb_eq in E; contradiction.
Qed.

Lemma all_below_spec (n : nat) (p : Z -> bool) :
  all_below n p = true -> forall v, 0 <= v < Z.of_nat n -> p v = true.
Proof.
  induction n as [|k IH]; simpl; intros E v Hv; [lia|].
  apply andb_true_iff in E as [E1 E2].
  destruct (Z.eq_dec v (Z.of_nat k)) as [->|N]; [assumption|].
  apply IH; [assumption|lia].
Qed.

Lemma str_mul_pad (n : Z) : str_mul (lit "=") n = repeat 61 (Z.to_nat n).
Proof.
  unfold str_mul. induction (Z.to_nat n) as [|k IH]; simpl; [reflexivity|].
  rewrite IH; reflexivity.
Qed.

Lemma drop_last4_png (s : str) : drop_last4 (s ++ lit ".png") = s.
Proof.
  unfold drop_last4. rewrite length_app. simpl length.
  replace (length s + 4 - 4)%nat with (length s + 0)%nat by lia.
  rewrite firstn_app_2. simpl. apply app_nil_r.
Qed.

Lemma rstrip_app_pads (c : Z) (s : str) (n : nat) :
  Forall (fun x => x <> c) s -> rstrip c (s ++ repeat c n) = s.
Proof.
  intros Hs. induction Hs as [|x s Hx Hs IH]; simpl.
  - induction n as [|n IHn]; simpl; [reflexivity|].
    rewrite IHn, Z.eqb_refl; reflexivity.
  - rewrite IH. destruct s; [|reflexivity].
    destruct (Z.eqb_spec x c); [contradiction|reflexivity].
Qed.

(** ** Proofs: UTF-8 *)

(** Settles the comparisons of the goal by arithmetic. *)
Ltac decide_cmp :=
  match goal with
  | |- context [?a <? ?b] =>
      first [ replace (a <? b) with true by (symmetry; apply Z.ltb_lt; dlia)
            | replace (a <? b) with false by (symmetry; apply Z.ltb_ge; dlia) ]
  | |- context [?a <=? ?b] =>
      first [ replace (a <=? b) with true by (symmetry; apply Z.leb_le; dlia)
            | replace (a <=? b) with false by (symmetry; apply Z.leb_gt; dlia) ]
  end.

Lemma Some_inj {A} (x y : A) : Some x = Some y -> x = y.
Proof. congruence. Qed.

Lemma Ok_inj {A} (x y : A) : Ok x = Ok y -> x = y.
Proof. congruence. Qed.

Lemma utf8_cont_true (b : Z) : 0x80 <= b < 0xC0 -> utf8.cont b = true.
Proof. intros Hb. unfold utf8.cont. repeat decide_cmp. reflexivity. Qed.

Lemma utf8_decode_1 (b : Z) (r : bytes) :
  0 <= b < 0x80 -> utf8.decode (b :: r) = utf8.push b (utf8.decode r).
Proof. intros Hb. cbn [utf8.decode]. repeat decide_cmp. reflexivity. Qed.

Lemma utf8_decode_2 (b0 b1 : Z) (r : bytes) :
  0xC0 <= b0 < 0xE0 -> 0x80 <= b1 < 0xC0 ->
  0x80 <= (b0 - 0xC0) * 64 + (b1 - 0x80) ->
  utf8.decode (b0 :: b1 :: r)
  = utf8.push ((b0 - 0xC0) * 64 + (b1 - 0x80)) (utf8.decode r).
Proof.
  intros H0 H1 Hc. remember (b1 :: r) as r0 eqn:E. cbn [utf8.decode].
  subst r0. cbv beta iota zeta. rewrite (utf8_cont_true b1 H1).
  repeat decide_cmp. reflexivity.
Qed.

Lemma outside_range (lo hi c : Z) :
  ~ lo <= c < hi -> negb ((lo <=? c) && (c <? hi)) = true.
Proof.
  intros N. destruct (Z.leb_spec lo c), (Z.ltb_spec c hi); cbn; try reflexivity.
  lia.
Qed.

Lemma utf8_decode_3 (b0 b1 b2 : Z) (r : bytes) :
  0xE0 <= b0 < 0xF0 -> 0x80 <= b1 < 0xC0 -> 0x80 <= b2 < 0xC0 ->
  0x800 <= (b0 - 0xE0) * 4096 + (b1 - 0x80) * 64 + (b2 - 0x80) ->
  ~ 0xD800 <= (b0 - 0xE0) * 4096 + (b1 - 0x80) * 64 + (b2 - 0x80) < 0xE000 ->
  utf8.decode (b0 :: b1 :: b2 :: r)
  = utf8.push ((b0 - 0xE0) * 4096 + (b1 - 0x80) * 64 + (b2 - 0x80))
      (utf8.decode r).
Proof.
  intros H0 H1 H2 Hc Hs. remember (b1 :: b2 :: r) as r0 eqn:E.
  cbn [utf8.decode]. subst r0. cbv beta iota zeta.
  rewrite (utf8_cont_true b1 H1), (utf8_cont_true b2 H2), (outside_range _ _ _ Hs).
  repeat decide_cmp. reflexivity.
Qed.

Lemma utf8_decode_4 (b0 b1 b2 b3 : Z) (r : bytes) :
  0xF0 <= b0 < 0xF8 -> 0x80 <= b1 < 0xC0 -> 0x80 <= b2 < 0xC0 ->
  0x80 <= b3 < 0xC0 ->
  0x10000 <= (b0 - 0xF0) * 262144 + (b1 - 0x80) * 4096 + (b2 - 0x80) * 64
             + (b3 - 0x80) < 0x110000 ->
  utf8.decode (b0 :: b1 :: b2 :: b3 :: r)
  = utf8.push ((b0 - 0xF0) * 262144 + (b1 - 0x80) * 4096 + (b2 - 0x80) * 64
               + (b3 - 0x80)) (utf8.decode r).
Proof.
  intros H0 H1 H2 H3 Hc. remember (b1 :: b2 :: b3 :: r) as r0 eqn:E.
  cbn [utf8.decode]. subst r0. cbv beta iota zeta.
  rewrite (utf8_cont_true b1 H1), (utf8_cont_true b2 H2), (utf8_cont_true b3 H3).
  repeat decide_cmp. reflexivity.
Qed.

Lemma utf8_decode_encode_char (c : Z) (bs rest : bytes) :
  utf8.encode_char c = Some bs ->
  utf8.decode (bs ++ rest) = utf8.push c (utf8.decode rest).
Proof.
  unfold utf8.encode_char. intros E.
  destruct (Z.ltb_spec c 0); [discriminate|].
  destruct (Z.ltb_spec c 0x80).
  { apply Some_inj in E; subst bs. apply utf8_decode_1; lia. }
  destruct (Z.ltb_spec c 0x800).
  { apply Some_inj in E; subst bs. cbn [app].
    rewrite utf8_decode_2 by dlia. f_equal; dlia. }
  destruct (Z.leb_spec 0xD800 c); destruct (Z.ltb_spec c 0xE000);
    cbn [andb] in E; try discriminate;
    (destruct (Z.ltb_spec c 0x10000);
     [ apply Some_inj in E; subst bs; cbn [app];
       rewrite utf8_decode_3 by dlia; f_equal; dlia | ]);
    (destruct (Z.ltb_spec c 0x110000); [|discriminate]);
    apply Some_inj in E; subst bs; cbn [app];
    rewrite utf8_decode_4 by dlia; f_equal; dlia.
Qed.

Lemma utf8_encode_char_octets (c : Z) (bs : bytes) :
  utf8.encode_char c = Some bs -> Forall is_octet bs.
Proof.
  unfold utf8.encode_char, is_octet. intros E.
  destruct (Z.ltb_spec c 0); [discriminate|].
  destruct (Z.ltb_spec c 0x80).
  { apply Some_inj in E; subst bs. repeat constructor; lia. }
  destruct (Z.ltb_spec c 0x800).
  { apply Some_inj in E; subst bs. repeat constructor; dlia. }
  destruct ((0xD800 <=? c) && (c <? 0xE000)); [discriminate|].
  destruct (Z.ltb_spec c 0x10000).
  { apply Some_inj in E; subst bs. repeat constructor; dlia. }
  destruct (Z.ltb_spec c 0x110000); [|discriminate].
  apply Some_inj in E; subst bs. repeat constructor; dlia.
Qed.

Lemma utf8_encode_octets (s : str) (bs : bytes) :
  utf8.encode s = Ok bs -> Forall is_octet bs.
Proof.
  revert bs; induction s as [|c s IH]; simpl; intros bs E.
  - apply Ok_inj in E; subst bs; constructor.
  - destruct (utf8.encode_char c) as [cs|] eqn:Ec; [|discriminate].
    destruct (utf8.encode s) as [rest|] eqn:Es; simpl in E; [|discriminate].
    apply Ok_inj in E; subst bs. apply Forall_app; split.
    + eapply utf8_encode_char_octets; eassumption.
    + apply IH; reflexivity.
Qed.

Lemma utf8_encode_raises (s : str) (e : exn) :
  utf8.encode s = Raise e -> e = UnicodeEncodeError.
Proof.
  induction s as [|c s IH]; cbn [utf8.encode]; [discriminate|].
  destruct (utf8.encode_char c); [|congruence].
  destruct (utf8.encode s); cbn [bind]; [discriminate|].
  intros E. apply IH. congruence.
Qed.

Lemma utf8_decode_encode (s : str) (bs : bytes) :
  utf8.encode s = Ok bs -> utf8.decode bs = Ok s.
Proof.
  revert bs; induction s as [|c s IH]; simpl; intros bs E.
  - apply Ok_inj in E; subst bs; reflexivity.
  - destruct (utf8.encode_char c) as [cs|] eqn:Ec; [|discriminate].
    destruct (utf8.encode s) as [rest|] eqn:Es; simpl in E; [|discriminate].
    apply Ok_inj in E; subst bs.
    rewrite (utf8_decode_encode_char _ _ _ Ec), (IH rest eq_refl); reflexivity.
Qed.

Lemma utf8_decode_ascii (bs : bytes) :
  Forall is_ascii bs -> utf8.decode bs = Ok bs.
Proof.
  induction 1 as [|b bs Hb _ IH]; [reflexivity|].
  unfold is_ascii in Hb. cbn [utf8.decode].
  destruct (Z.leb_spec 0 b); [|lia]. destruct (Z.ltb_spec b 128); [|lia].
  simpl. rewrite IH; reflexivity.
Qed.

(** ** Proofs: base-64 *)

Lemma list_ind3 {A} (P : list A -> Prop) :
  P [] -> (forall a, P [a]) -> (forall a b, P [a; b]) ->
  (forall a b c r, P r -> P (a :: b :: c :: r)) ->
  forall l, P l.
Proof.
  intros H0 H1 H2 H3.
  fix IH 1. intros [|a [|b [|c r]]].
  - exact H0.
  - apply H1.
  - apply H2.
  - apply H3, IH.
Qed.


Lemma sextet_ok_all : all_below 64 sextet_ok = true.
Proof. vm_compute. reflexivity. Qed.

Lemma sextet_char (v : Z) :
  is_sextet v ->
  binascii.table_a2b_base64 (binascii.b2a v) = Some v
  /\ binascii.b2a v <> 61
  /\ base64._urlsafe_encode_translation (binascii.b2a v) <> 61
  /\ urlsafe_char (base64._urlsafe_encode_translation (binascii.b2a v)) = true
  /\ base64._urlsafe_decode_translation
       (base64._urlsafe_encode_translation (binascii.b2a v)) = binascii.b2a v.
Proof.
  intros Hv. pose proof (all_below_spec 64 sextet_ok sextet_ok_all v Hv) as E.
  unfold sextet_ok in E.
  destruct (binascii.table_a2b_base64 (binascii.b2a v)) as [w|]; [|discriminate].
  repeat (apply andb_true_iff in E as [E ?]).
  apply Z.eqb_eq in E; subst w.
  repeat split; try assumption.
  - intros N. rewrite N in *. discriminate.
  - intros N. rewrite N in *. discriminate.
  - apply Z.eqb_eq; assumption.
Qed.

Lemma sextets_range (data : bytes) :
  Forall is_octet data -> Forall is_sextet (sextets data).
Proof.
  unfold is_octet, is_sextet.
  induction data as [|a|a b|a b c r IH] using list_ind3; intros Hd; cbn [sextets].
  - constructor.
  - inversion_clear Hd. repeat constructor; dlia.
  - inversion_clear Hd as [|? ? ? Hd']. inversion_clear Hd'.
    repeat constructor; dlia.
  - inversion_clear Hd as [|? ? ? Hd1]. inversion_clear Hd1 as [|? ? ? Hd2].
    inversion_clear Hd2. repeat constructor; try dlia. apply IH; assumption.
Qed.

Lemma b2a_base64_sextets (data : bytes) :
  binascii.b2a_base64 data
  = map binascii.b2a (sextets data) ++ repeat 61 (b2a_pads data).
Proof.
  induction data as [|a|a b|a b c r IH] using list_ind3; try reflexivity.
  cbn [binascii.b2a_base64 sextets b2a_pads map app]. rewrite IH; reflexivity.
Qed.

(** One step of the decoder on a pad, on a skipped and on a data character. *)
Lemma a2b_loop_pad (q l p : Z) (rest bin : bytes) :
  binascii.a2b_loop q l p (61 :: rest) bin
  = if 2 <=? q then
      if 4 <=? q + (p + 1) then Ok bin
      else binascii.a2b_loop q l (p + 1) rest bin
    else binascii.a2b_loop q l p rest bin.
Proof. reflexivity. Qed.

Lemma a2b_loop_skip (q l p c : Z) (rest bin : bytes) :
  c <> 61 -> binascii.table_a2b_base64 c = None ->
  binascii.a2b_loop q l p (c :: rest) bin = binascii.a2b_loop q l p rest bin.
Proof.
  intros Hc Ht. cbn [binascii.a2b_loop]. change binascii.BASE64_PAD with 61.
  destruct (Z.eqb_spec c 61); [contradiction|]. rewrite Ht; reflexivity.
Qed.

Lemma a2b_loop_data (q l p c v : Z) (rest bin : bytes) :
  c <> 61 -> binascii.table_a2b_base64 c = Some v ->
  binascii.a2b_loop q l p (c :: rest) bin
  = if q =? 0 then binascii.a2b_loop 1 v 0 rest bin
    else if q =? 1 then binascii.a2b_loop 2 (v mod 16) 0 rest (bin ++ [l * 4 + v / 16])
    else if q =? 2 then binascii.a2b_loop 3 (v mod 4) 0 rest (bin ++ [l * 16 + v / 4])
    else binascii.a2b_loop 0 0 0 rest (bin ++ [l * 64 + v]).
Proof.
  intros Hc Ht. cbn [binascii.a2b_loop]. change binascii.BASE64_PAD with 61.
  destruct (Z.eqb_spec c 61); [contradiction|]. rewrite Ht; reflexivity.
Qed.

Lemma a2b_loop_sextet (q l p v : Z) (rest bin : bytes) :
  is_sextet v ->
  binascii.a2b_loop q l p (binascii.b2a v :: rest) bin
  = if q =? 0 then binascii.a2b_loop 1 v 0 rest bin
    else if q =? 1 then binascii.a2b_loop 2 (v mod 16) 0 rest (bin ++ [l * 4 + v / 16])
    else if q =? 2 then binascii.a2b_loop 3 (v mod 4) 0 rest (bin ++ [l * 16 + v / 4])
    else binascii.a2b_loop 0 0 0 rest (bin ++ [l * 64 + v]).
Proof.
  intros Hv. destruct (sextet_char v Hv) as (Ht & Hc & _).
  apply a2b_loop_data; assumption.
Qed.

(** A full group: four characters give back the three octets. *)
Lemma a2b_loop_quad (l p b1 b2 b3 : Z) (rest bin : bytes) :
  is_octet b1 -> is_octet b2 -> is_octet b3 ->
  binascii.a2b_loop 0 l p
    (binascii.b2a (b1 / 4) :: binascii.b2a (b1 mod 4 * 16 + b2 / 16)
     :: binascii.b2a (b2 mod 16 * 4 + b3 / 64) :: binascii.b2a (b3 mod 64)
     :: rest) bin
  = binascii.a2b_loop 0 0 0 rest (bin ++ [b1; b2; b3]).
Proof.
  unfold is_octet; intros H1 H2 H3.
  rewrite !a2b_loop_sextet by (unfold is_sextet; dlia).
  change (0 =? 0) with true; change (1 =? 0) with false;
    change (1 =? 1) with true; change (2 =? 0) with false;
    change (2 =? 1) with false; change (2 =? 2) with true;
    change (3 =? 0) with false; change (3 =? 1) with false;
    change (3 =? 2) with false; cbv iota.
  rewrite <- !app_assoc. cbn [app]. repeat f_equal; dlia.
Qed.

Lemma a2b_loop_roundtrip (data : bytes) :
  Forall is_octet data ->
  forall l p bin,
    binascii.a2b_loop 0 l p
      (map binascii.b2a (sextets data) ++ repeat 61 (repad_count data)) bin
    = Ok (bin ++ data).
Proof.
  induction data as [|a|a b|a b c r IH] using list_ind3; intros Hd l p bin.
  - rewrite app_nil_r; reflexivity.
  - inversion_clear Hd as [|? ? Ha _]. unfold is_octet in Ha.
    cbn [sextets repad_count map app repeat].
    rewrite !a2b_loop_sextet by (unfold is_sextet; dlia).
    change (0 =? 0) with true; change (1 =? 0) with false;
      change (1 =? 1) with true; cbv iota.
    rewrite !a2b_loop_pad. cbn [Z.leb Z.add Z.compare Pos.compare Pos.compare_cont Pos.add Pos.succ].
    repeat f_equal; dlia.
  - inversion_clear Hd as [|? ? Ha Hd']. inversion_clear Hd' as [|? ? Hb _].
    unfold is_octet in Ha, Hb.
    cbn [sextets repad_count map app repeat].
    rewrite !a2b_loop_sextet by (unfold is_sextet; dlia).
    change (0 =? 0) with true; change (1 =? 0) with false;
      change (1 =? 1) with true; change (2 =? 0) with false;
      change (2 =? 1) with false; change (2 =? 2) with true; cbv iota.
    rewrite !a2b_loop_pad. cbn [Z.leb Z.add Z.compare Pos.compare Pos.compare_cont Pos.add Pos.succ].
    rewrite <- !app_assoc. cbn [app]. repeat f_equal; dlia.
  - inversion_clear Hd as [|? ? Ha Hd1]. inversion_clear Hd1 as [|? ? Hb Hd2].
    inversion_clear Hd2 as [|? ? Hc Hr].
    cbn [sextets repad_count map app].
    rewrite a2b_loop_quad by assumption.
    rewrite (IH Hr), <- app_assoc. reflexivity.
Qed.

Lemma identifier_chars (data : bytes) :
  Forall is_octet data ->
  Forall (fun c => urlsafe_char c = true /\ c <> 61) (identifier_of data).
Proof.
  intros Hd. apply sextets_range in Hd. unfold identifier_of.
  induction Hd as [|v vs Hv _ IH]; cbn [map]; constructor; [|assumption].
  destruct (sextet_char v Hv) as (_ & _ & Hn & Hu & _). split; assumption.
Qed.

Lemma urlsafe_char_ascii (c : Z) : urlsafe_char c = true -> is_ascii c.
Proof.
  unfold urlsafe_char, is_ascii. intros E.
  repeat (apply orb_true_iff in E as [E|E]);
    repeat (apply andb_true_iff in E as [E ?]); lia.
Qed.

Lemma identifier_translated (data : bytes) :
  Forall is_octet data ->
  map base64._urlsafe_decode_translation (identifier_of data)
  = map binascii.b2a (sextets data).
Proof.
  intros Hd. apply sextets_range in Hd. unfold identifier_of.
  induction Hd as [|v vs Hv _ IH]; cbn [map]; [reflexivity|].
  destruct (sextet_char v Hv) as (_ & _ & _ & _ & Hr). rewrite Hr, IH; reflexivity.
Qed.

Lemma length_sextets_repad (data : bytes) :
  4 - Z.of_nat (length (sextets data)) mod 4 = Z.of_nat (repad_count data).
Proof.
  induction data as [|a|a b|a b c r IH] using list_ind3; try reflexivity.
  cbn [sextets repad_count length]. rewrite <- IH.
  replace (Z.of_nat (S (S (S (S (length (sextets r)))))))
    with (Z.of_nat (length (sextets r)) + 1 * 4) by lia.
  rewrite Z.mod_add by lia. reflexivity.
Qed.

Lemma padding_needed_identifier (data : bytes) :
  padding_needed (identifier_of data) = Z.of_nat (repad_count data).
Proof.
  unfold padding_needed, len, identifier_of. rewrite !length_map.
  apply length_sextets_repad.
Qed.

Lemma padding_needed_range (s : str) : 1 <= padding_needed s <= 4.
Proof. unfold padding_needed. dlia. Qed.

Lemma repadded_eq (s : str) :
  repadded s = s ++ repeat 61 (Z.to_nat (padding_needed s)).
Proof.
  unfold repadded. pose proof (padding_needed_range s) as Hp.
  destruct (Z.eqb_spec (padding_needed s) 0); [lia|].
  cbn [negb]. rewrite str_mul_pad. reflexivity.
Qed.

Lemma map_repeat_pad (f : Z -> Z) (n : nat) :
  f 61 = 61 -> map f (repeat 61 n) = repeat 61 n.
Proof. intros E. induction n; cbn [repeat map]; congruence. Qed.

Lemma bytes_from_decode_data_ascii (s : str) :
  Forall is_ascii s -> base64._bytes_from_decode_data s = Ok s.
Proof.
  intros Hs. unfold base64._bytes_from_decode_data.
  replace (forallb _ s) with true; [reflexivity|].
  symmetry. apply forallb_forall. intros c Hc.
  rewrite Forall_forall in Hs. specialize (Hs c Hc). unfold is_ascii in Hs.
  apply andb_true_iff; split; [apply Z.leb_le|apply Z.ltb_lt]; lia.
Qed.

Lemma repeat_pad_ascii (n : nat) : Forall is_ascii (repeat 61 n).
Proof. induction n; constructor; [unfold is_ascii; lia|assumption]. Qed.

(** The codec on byte strings: the repadded identifier decodes to the bytes
    it was made from. *)
Lemma urlsafe_b64decode_identifier (data : bytes) :
  Forall is_octet data ->
  base64.urlsafe_b64decode (repadded (identifier_of data)) = Ok data.
Proof.
  intros Hd. rewrite repadded_eq, padding_needed_identifier, Nat2Z.id.
  unfold base64.urlsafe_b64decode.
  rewrite bytes_from_decode_data_ascii.
  - cbn [bind]. rewrite map_app, identifier_translated, map_repeat_pad
      by (assumption || reflexivity).
    unfold binascii.a2b_base64. apply (a2b_loop_roundtrip data Hd 0 0 []).
  - apply Forall_app; split; [|apply repeat_pad_ascii].
    eapply Forall_impl; [|apply identifier_chars; assumption].
    intros c [Hc _]. apply urlsafe_char_ascii; assumption.
Qed.

(** The encoder's characters, decoded as text and stripped of the pads, are
    the identifier. *)
Lemma urlsafe_b64encode_stripped (data : bytes) :
  Forall is_octet data ->
  (decoded <- utf8.decode (base64.urlsafe_b64encode data) ;; Ok (rstrip 61 decoded))
  = Ok (identifier_of data).
Proof.
  intros Hd. unfold base64.urlsafe_b64encode.
  rewrite b2a_base64_sextets, map_app, map_repeat_pad by reflexivity.
  fold (identifier_of data).
  rewrite utf8_decode_ascii.
  - cbn [bind]. rewrite rstrip_app_pads; [reflexivity|].
    eapply Forall_impl; [|apply identifier_chars; assumption].
    intros c [_ Hc]; assumption.
  - apply Forall_app; split; [|apply repeat_pad_ascii].
    eapply Forall_impl; [|apply identifier_chars; assumption].
    intros c [Hc _]. apply urlsafe_char_ascii; assumption.
Qed.

Section CodecTheorems.
Context `{Externals}.

(** The identifier of an accepted URL whose normal form has a UTF-8
    encoding. *)
Lemma encode_url_to_filename_ok (u n : str) (data : bytes) :
  validate_and_sanitize_url u = Ok n ->
  utf8.encode n = Ok data ->
  encode_url_to_filename u = Ok (identifier_of data).
Proof.
  intros Hv He. unfold encode_url_to_filename. rewrite Hv. cbn [bind].
  rewrite He. cbn [bind].
  apply urlsafe_b64encode_stripped. eapply utf8_encode_octets; eassumption.
Qed.

Lemma encode_url_to_filename_unencodable (u n : str) :
  validate_and_sanitize_url u = Ok n ->
  is_ok (utf8.encode n) = false ->
  encode_url_to_filename u = Raise UnicodeEncodeError.
Proof.
  intros Hv He. unfold encode_url_to_filename. rewrite Hv. cbn [bind].
  destruct (utf8.encode n) as [data|e] eqn:Ed; [discriminate|].
  apply utf8_encode_raises in Ed; subst e. reflexivity.
Qed.

(** C1. Round trip: for a URL [u] that the validator accepts, with normal
    form [n], decoding the identifier that the encoder returns for [u] gives
    exactly [n]:
    [decode_filename_to_url (encode_url_to_filename u)
     = validate_and_sanitize_url u].
    The encoder returns an identifier whenever [n] has a UTF-8 encoding, and
    raises [UnicodeEncodeError] otherwise (a lone surrogate in [n]). *)
Theorem decode_encode_roundtrip (u n : str) :
  validate_and_sanitize_url u = Ok n ->
  (forall id, encode_url_to_filename u = Ok id ->
              decode_filename_to_url id = validate_and_sanitize_url u)
  /\ (is_ok (utf8.encode n) = true -> is_ok (encode_url_to_filename u) = true)
  /\ (is_ok (utf8.encode n) = false ->
      encode_url_to_filename u = Raise UnicodeEncodeError).
Proof.
  intros Hv. destruct (utf8.encode n) as [data|e] eqn:Ed.
  - rewrite (encode_url_to_filename_ok u n data Hv Ed). cbn [is_ok].
    repeat split; try discriminate.
    intros id E. apply Ok_inj in E; subst id.
    rewrite Hv. unfold decode_filename_to_url.
    rewrite urlsafe_b64decode_identifier
      by (eapply utf8_encode_octets; eassumption).
    cbn [bind]. apply utf8_decode_encode; assumption.
  - assert (He : is_ok (utf8.encode n) = false) by (rewrite Ed; reflexivity).
    rewrite (encode_url_to_filename_unencodable u n Hv He).
    repeat split; try discriminate.
Qed.

End CodecTheorems.

(** ** Proofs: what the lenient decoder accepts *)

Lemma decode_translation_pad (c : Z) :
  base64._urlsafe_decode_translation c = 61 -> c = 61.
Proof.
  unfold base64._urlsafe_decode_translation.
  destruct (Z.eqb_spec c 45); [discriminate|].
  destruct (Z.eqb_spec c 95); [discriminate|]. trivial.
Qed.

Lemma a2b_loop_raises (ascii : bytes) :
  forall q l p bin e,
    binascii.a2b_loop q l p ascii bin = Raise e -> exists msg, e = binascii_Error msg.
Proof.
  induction ascii as [|c rest IH]; intros q l p bin e; cbn [binascii.a2b_loop].
  - destruct (q =? 0); [discriminate|].
    destruct (q =? 1); intros E; injection E as <-; eexists; reflexivity.
  - destruct (c =? binascii.BASE64_PAD).
    + destruct (2 <=? q); [|apply IH].
      destruct (4 <=? q + (p + 1)); [discriminate|apply IH].
    + destruct (binascii.table_a2b_base64 c); [|apply IH].
      destruct (q =? 0); [apply IH|].
      destruct (q =? 1); [apply IH|].
      destruct (q =? 2); apply IH.
Qed.

Lemma a2b_loop_pads (q l : Z) (n : nat) (bin : bytes) :
  0 <= q < 4 -> (1 <= n <= 4)%nat ->
  binascii.a2b_loop q l 0 (repeat 61 n) bin = pad_outcome q n bin.
Proof.
  intros Hq Hn.
  assert (q = 0 \/ q = 1 \/ q = 2 \/ q = 3) as [-> | [-> | [-> | ->]]] by lia;
    (destruct n as [|[|[|[|[|n]]]]]; [lia| | | | |lia]); reflexivity.
Qed.

Lemma data_count_cons (c : Z) (s : str) :
  data_count (c :: s) = if b64_data c then 1 + data_count s else data_count s.
Proof.
  unfold data_count, len. cbn [filter]. destruct (b64_data c); [|reflexivity].
  cbn [length]. lia.
Qed.

Lemma data_count_range (s : str) : 0 <= data_count s <= len s.
Proof.
  unfold data_count, len. pose proof (filter_length_le b64_data s). lia.
Qed.

(** Without a pad in it, a string moves the decoder by the number of its data
    characters and leaves the pad count at zero. *)
Lemma a2b_loop_no_pad (s : str) :
  Forall (fun c => c <> 61) s ->
  forall q l bin, 0 <= q < 4 ->
    exists l' bin', forall rest,
      binascii.a2b_loop q l 0 (map base64._urlsafe_decode_translation s ++ rest) bin
      = binascii.a2b_loop ((q + data_count s) mod 4) l' 0 rest bin'.
Proof.
  induction 1 as [|c s Hc Hs IH]; intros q l bin Hq.
  - exists l, bin. intros rest. cbn [map app]. unfold data_count; cbn.
    rewrite Z.add_0_r, Z.mod_small by lia. reflexivity.
  - assert (Hd : base64._urlsafe_decode_translation c <> 61)
      by (intros E; apply Hc, decode_translation_pad, E).
    rewrite data_count_cons. unfold b64_data. cbn [map app].
    destruct (binascii.table_a2b_base64 (base64._urlsafe_decode_translation c))
      as [v|] eqn:Et.
    + assert (q = 0 \/ q = 1 \/ q = 2 \/ q = 3) as [-> | [-> | [-> | ->]]] by lia.
      * destruct (IH 1 v bin ltac:(lia)) as (l' & bin' & E).
        exists l', bin'. intros rest.
        rewrite (a2b_loop_data _ _ _ _ v) by assumption.
        change (0 =? 0) with true; cbv iota. rewrite E. f_equal; dlia.
      * destruct (IH 2 (v mod 16) (bin ++ [l * 4 + v / 16]) ltac:(lia)) as (l' & bin' & E).
        exists l', bin'. intros rest.
        rewrite (a2b_loop_data _ _ _ _ v) by assumption.
        change (1 =? 0) with false; change (1 =? 1) with true; cbv iota.
        rewrite E. f_equal; dlia.
      * destruct (IH 3 (v mod 4) (bin ++ [l * 16 + v / 4]) ltac:(lia)) as (l' & bin' & E).
        exists l', bin'. intros rest.
        rewrite (a2b_loop_data _ _ _ _ v) by assumption.
        change (2 =? 0) with false; change (2 =? 1) with false;
          change (2 =? 2) with true; cbv iota.
        rewrite E. f_equal; dlia.
      * destruct (IH 0 0 (bin ++ [l * 64 + v]) ltac:(lia)) as (l' & bin' & E).
        exists l', bin'. intros rest.
        rewrite (a2b_loop_data _ _ _ _ v) by assumption.
        change (3 =? 0) with false; change (3 =? 1) with false;
          change (3 =? 2) with false; cbv iota.
        rewrite E. f_equal; dlia.
    + destruct (IH q l bin Hq) as (l' & bin' & E).
      exists l', bin'. intros rest.
      rewrite a2b_loop_skip by assumption. apply E.
Qed.

Lemma bytes_from_decode_data_spec (s : str) :
  (Forall is_ascii s /\ base64._bytes_from_decode_data s = Ok s)
  \/ (~ Forall is_ascii s
      /\ base64._bytes_from_decode_data s
         = Raise (ValueError "string argument should contain only ASCII characters")).
Proof.
  unfold base64._bytes_from_decode_data.
  destruct (forallb _ s) eqn:E.
  - left. split; [|reflexivity]. apply Forall_forall. intros c Hc.
    rewrite forallb_forall in E. specialize (E c Hc).
    apply andb_true_iff in E as [E1 E2]. unfold is_ascii. lia.
  - right. split; [|reflexivity]. intros Hs.
    assert (forallb (fun c => (0 <=? c) && (c <? 128)) s = true); [|congruence].
    apply forallb_forall. intros c Hc. rewrite Forall_forall in Hs.
    specialize (Hs c Hc). unfold is_ascii in Hs.
    apply andb_true_iff; split; [apply Z.leb_le|apply Z.ltb_lt]; lia.
Qed.

(** The base-64 step on an ASCII string without a pad in it. *)
Lemma urlsafe_b64decode_no_pad (s : str) :
  Forall is_ascii s -> Forall (fun c => c <> 61) s ->
  exists bin,
    base64.urlsafe_b64decode (repadded s)
    = pad_outcome (data_count s mod 4) (Z.to_nat (padding_needed s)) bin.
Proof.
  intros Ha Hp. pose proof (padding_needed_range s) as Hn.
  destruct (a2b_loop_no_pad s Hp 0 0 [] ltac:(lia)) as (l' & bin' & E).
  exists bin'. rewrite repadded_eq. unfold base64.urlsafe_b64decode.
  rewrite bytes_from_decode_data_ascii
    by (apply Forall_app; split; [assumption|apply repeat_pad_ascii]).
  cbn [bind]. rewrite map_app, map_repeat_pad by reflexivity.
  unfold binascii.a2b_base64. rewrite E, Z.add_0_l.
  apply a2b_loop_pads; [dlia|lia].
Qed.

Lemma utf8_push_raises (c : Z) (r : result str) (e : exn) :
  utf8.push c r = Raise e -> r = Raise e.
Proof. destruct r; cbn; [discriminate|trivial]. Qed.

Lemma utf8_decode_raises_upto (n : nat) :
  forall bs e, (length bs <= n)%nat ->
    utf8.decode bs = Raise e -> e = UnicodeDecodeError.
Proof.
  induction n as [|n IH]; intros bs e Hl.
  - destruct bs; [discriminate|cbn in Hl; lia].
  - destruct bs as [|b0 r0]; [discriminate|]. cbn [length] in Hl.
    cbn [utf8.decode].
    destruct ((0 <=? b0) && (b0 <? 128)).
    { intros E. apply utf8_push_raises in E. apply (IH r0); [lia|assumption]. }
    destruct ((192 <=? b0) && (b0 <? 224)).
    { destruct r0 as [|b1 r1]; [congruence|]. cbn [length] in Hl.
      destruct (_ && _); [|congruence].
      intros E. apply utf8_push_raises in E. apply (IH r1); [lia|assumption]. }
    destruct ((224 <=? b0) && (b0 <? 240)).
    { destruct r0 as [|b1 [|b2 r2]]; try congruence. cbn [length] in Hl.
      destruct (_ && _); [|congruence].
      intros E. apply utf8_push_raises in E. apply (IH r2); [lia|assumption]. }
    destruct ((240 <=? b0) && (b0 <? 248)); [|congruence].
    destruct r0 as [|b1 [|b2 [|b3 r3]]]; try congruence. cbn [length] in Hl.
    destruct (_ && _); [|congruence].
    intros E. apply utf8_push_raises in E. apply (IH r3); [lia|assumption].
Qed.

Lemma utf8_decode_raises (bs : bytes) (e : exn) :
  utf8.decode bs = Raise e -> e = UnicodeDecodeError.
Proof. apply (utf8_decode_raises_upto (length bs)); lia. Qed.

Lemma urlsafe_b64decode_raises (s : str) (e : exn) :
  base64.urlsafe_b64decode s = Raise e -> MalformedIdentifier e.
Proof.
  unfold base64.urlsafe_b64decode.
  destruct (bytes_from_decode_data_spec s) as [[_ ->]|[_ ->]]; cbn [bind].
  - intros E. apply a2b_loop_raises in E as [msg ->]. exact I.
  - intros E; injection E as <-. reflexivity.
Qed.

(** Whatever the decoder raises is a malformed-identifier error. *)
Lemma decode_filename_to_url_raises (s : str) (e : exn) :
  decode_filename_to_url s = Raise e -> MalformedIdentifier e.
Proof.
  unfold decode_filename_to_url.
  destruct (base64.urlsafe_b64decode (repadded s)) as [data|e'] eqn:E; cbn [bind].
  - intros Hd. apply utf8_decode_raises in Hd; subst e. exact I.
  - intros Hd; injection Hd as <-. eapply urlsafe_b64decode_raises; eassumption.
Qed.

(** ** The padding of the decoder *)

Lemma b64_data_ascii (c : Z) : b64_data c = true -> is_ascii c /\ c <> 61.
Proof.
  unfold b64_data, binascii.table_a2b_base64, base64._urlsafe_decode_translation,
    is_ascii.
  destruct (Z.eqb_spec c 45); [lia|]. destruct (Z.eqb_spec c 95); [lia|].
  destruct (Z.leb_spec 65 c), (Z.leb_spec c 90); cbn [andb]; try lia;
    destruct (Z.leb_spec 97 c), (Z.leb_spec c 122); cbn [andb]; try lia;
    destruct (Z.leb_spec 48 c), (Z.leb_spec c 57); cbn [andb]; try lia;
    destruct (Z.eqb_spec c 43); try lia; destruct (Z.eqb_spec c 47); try lia;
    discriminate.
Qed.

Lemma data_count_all (s : str) : forallb b64_data s = true -> data_count s = len s.
Proof.
  intros E. unfold data_count. f_equal.
  induction s as [|c s IH]; [reflexivity|]. cbn [forallb] in E.
  apply andb_true_iff in E as [Ec Es]. cbn [filter]. rewrite Ec, IH by assumption.
  reflexivity.
Qed.

Lemma len_app_pads (s : str) (n : Z) :
  0 <= n -> len (s ++ repeat 61 (Z.to_nat n)) = len s + n.
Proof. intros Hn. unfold len. rewrite length_app, repeat_length. lia. Qed.

(** C2 (amended). For an input whose length is congruent to 1, 2 or 3 modulo
    4 the decoder appends 3, 2 or 1 pad characters respectively; the string it
    hands to the base-64 decoder is the input followed by [padding_needed]
    pads and its length is a multiple of 4; and an input made only of base-64
    data characters whose length is congruent to 1 modulo 4 makes the decoder
    fail with a base-64 error. *)
Theorem padding_needed_by_remainder (s : str) :
  (len s mod 4 = 1 -> padding_needed s = 3)
  /\ (len s mod 4 = 2 -> padding_needed s = 2)
  /\ (len s mod 4 = 3 -> padding_needed s = 1)
  /\ repadded s = s ++ str_mul (lit "=") (padding_needed s)
  /\ len (repadded s) mod 4 = 0
  /\ (len s mod 4 = 1 -> forallb b64_data s = true ->
      exists msg, decode_filename_to_url s = Raise (binascii_Error msg)
                  /\ MalformedIdentifier (binascii_Error msg)).
Proof.
  pose proof (padding_needed_range s) as Hr.
  repeat split; try (unfold padding_needed; lia).
  - rewrite repadded_eq, str_mul_pad; reflexivity.
  - rewrite repadded_eq, len_app_pads by lia. unfold padding_needed. dlia.
  - intros Hl Hd.
    assert (Hs : Forall (fun c => is_ascii c /\ c <> 61) s).
    { apply Forall_forall. intros c Hc. apply b64_data_ascii.
      rewrite forallb_forall in Hd. apply Hd; assumption. }
    destruct (urlsafe_b64decode_no_pad s) as [bin E].
    + eapply Forall_impl; [|exact Hs]. intros c [Hc _]; exact Hc.
    + eapply Forall_impl; [|exact Hs]. intros c [_ Hc]; exact Hc.
    + rewrite (data_count_all s Hd), Hl in E. unfold pad_outcome in E.
      change (1 =? 0) with false in E; change (1 =? 1) with true in E.
      cbv iota in E. eexists. unfold decode_filename_to_url. rewrite E.
      split; [reflexivity|exact I].
Qed.

(** C6 (amended). Every failure of [decode_filename_to_url] is a
    malformed-identifier error; it fails exactly when the lenient base-64
    decoder rejects the repadded input or the decoded bytes are not valid
    UTF-8, and otherwise returns the decoded text.  The lenient decoder skips
    the characters outside the alphabet and ignores surplus pads: on an input
    without a pad character it rejects exactly when a character is not ASCII,
    or the data characters number 1 modulo 4, or they number 2 modulo 4 and
    the input length is 3 modulo 4. *)
Theorem decode_fails_exactly (s : str) :
  (forall e, decode_filename_to_url s = Raise e -> MalformedIdentifier e)
  /\ (is_ok (decode_filename_to_url s) = false <->
      is_ok (base64.urlsafe_b64decode (repadded s)) = false
      \/ exists data, base64.urlsafe_b64decode (repadded s) = Ok data
                      /\ utf8.decode data = Raise UnicodeDecodeError)
  /\ (forall data, base64.urlsafe_b64decode (repadded s) = Ok data ->
      decode_filename_to_url s = utf8.decode data)
  /\ (Forall (fun c => c <> ord "=") s ->
      (is_ok (base64.urlsafe_b64decode (repadded s)) = false <->
       ~ Forall is_ascii s
       \/ data_count s mod 4 = 1
       \/ (data_count s mod 4 = 2 /\ len s mod 4 = 3))).
Proof.
  split; [apply decode_filename_to_url_raises|].
  split; [|split].
  - unfold decode_filename_to_url.
    destruct (base64.urlsafe_b64decode (repadded s)) as [data|e]; cbn [bind is_ok].
    + split.
      * intros E. right. exists data. split; [reflexivity|].
        destruct (utf8.decode data) as [u|e] eqn:Ed; [discriminate|].
        apply utf8_decode_raises in Ed. subst e. reflexivity.
      * intros [E|(data' & E & Ed)]; [discriminate|].
        apply Ok_inj in E; subst data'. rewrite Ed. reflexivity.
    + split; [left|]; reflexivity.
  - intros data E. unfold decode_filename_to_url. rewrite E. reflexivity.
  - intros Hp. destruct (bytes_from_decode_data_spec s) as [[Ha _]|[Hn _]].
    + destruct (urlsafe_b64decode_no_pad s Ha Hp) as [bin E]. rewrite E.
      pose proof (padding_needed_range s) as Hr.
      assert (Hq : 0 <= data_count s mod 4 < 4) by dlia.
      unfold pad_outcome.
      destruct (Z.eqb_spec (data_count s mod 4) 0).
      { cbn [is_ok]. split; [discriminate|]. intros [N|[N|[N _]]]; [contradiction|lia|lia]. }
      destruct (Z.eqb_spec (data_count s mod 4) 1).
      { cbn [is_ok]. split; [|reflexivity]. intros _. right; left; assumption. }
      destruct (Z.eqb_spec (data_count s mod 4) 2).
      { destruct (Nat.leb_spec 2 (Z.to_nat (padding_needed s))); cbn [is_ok].
        - split; [discriminate|]. intros [N|[N|[_ N]]]; [contradiction|lia|].
          unfold padding_needed in *. lia.
        - split; [|reflexivity]. intros _. right; right. split; [assumption|].
          unfold padding_needed in *. dlia. }
      cbn [is_ok]. split; [discriminate|]. intros [N|[N|[N _]]]; [contradiction|lia|lia].
    + split; [intros _; left; assumption|]. intros _.
      unfold base64.urlsafe_b64decode.
      destruct (bytes_from_decode_data_spec (repadded s)) as [[Ha _]|[_ ->]];
        [|reflexivity].
      exfalso. apply Hn. rewrite repadded_eq in Ha. apply Forall_app in Ha as [Ha _].
      exact Ha.
Qed.

(** ** The link builder *)

Lemma str_in_cases (a : str) (l : list str) :
  str_in a l = true <-> In a l.
Proof.
  unfold str_in. rewrite existsb_exists. split.
  - intros (x & Hx & E). apply str_eqb_eq in E; subst x; assumption.
  - intros Hx. exists a. split; [assumption|apply str_eqb_refl].
Qed.

(** C5. For a file name [id ++ ".png"] whose identifier decodes, the link
    builder, on the action "create" and likewise on "list", returns exactly
    two links: first the view link (GET, image/png) on the download URL, then
    the delete link (DELETE, application/json) on
    [base_api_url ++ "/qr-codes/" ++ filename]. *)
Theorem generate_links_create_list (action id base_api_url download_url : str) :
  action = lit "create" \/ action = lit "list" ->
  is_ok (decode_filename_to_url id) = true ->
  generate_links action (id ++ lit ".png") base_api_url download_url
  = Ok [ {| rel := lit "view"; href := download_url;
            action := lit "GET"; type := lit "image/png" |};
         {| rel := lit "delete";
            href := base_api_url ++ lit "/qr-codes/" ++ (id ++ lit ".png");
            action := lit "DELETE"; type := lit "application/json" |} ].
Proof.
  intros Ha Hd. unfold generate_links. rewrite drop_last4_png.
  destruct (decode_filename_to_url id) as [u|e]; [|discriminate].
  destruct Ha as [-> | ->]; reflexivity.
Qed.

(** C10. For an action outside "list", "create" and "delete" the link builder
    returns the empty list for every file name, decodable or not; for the
    action "delete" it returns the delete link alone for every file name,
    decodable or not. *)
Theorem generate_links_without_decoding (action qr_filename base_api_url download_url : str) :
  (~ In action [lit "list"; lit "create"; lit "delete"] ->
   generate_links action qr_filename base_api_url download_url = Ok [])
  /\ generate_links (lit "delete") qr_filename base_api_url download_url
     = Ok [ {| rel := lit "delete";
               href := base_api_url ++ lit "/qr-codes/" ++ qr_filename;
               action := lit "DELETE"; type := lit "application/json" |} ].
Proof.
  split; [|reflexivity].
  intros Hn. unfold generate_links.
  destruct (str_in action [lit "list"; lit "create"]) eqn:E1.
  { apply str_in_cases in E1. exfalso. apply Hn. cbn in E1 |- *. tauto. }
  destruct (str_in action [lit "list"; lit "create"; lit "delete"]) eqn:E2.
  { apply str_in_cases in E2. contradiction. }
  reflexivity.
Qed.

(** ** The validator and the encoder *)

Section ValidatorTheorems.
Context `{Externals}.

Lemma validate_rejected (s : str) :
  validators_url s = false -> validate_and_sanitize_url s = Raise InvalidURL.
Proof. intros E. unfold validate_and_sanitize_url. rewrite E. reflexivity. Qed.

(** C7. The validator raises [InvalidURL] on every string that the URL
    validation rejects, and returns a normalized URL only for a string that
    the validation accepts.  As long as the validation accepts no string
    without the scheme delimiter [:], the strings "not a url", "" and
    "ftp//missing-colon" raise [InvalidURL]. *)
Theorem validator_rejects_non_urls :
  (forall s, validators_url s = false ->
             validate_and_sanitize_url s = Raise InvalidURL)
  /\ (forall s n, validate_and_sanitize_url s = Ok n -> validators_url s = true)
  /\ ((forall s, validators_url s = true -> In (ord ":") s) ->
      validate_and_sanitize_url (lit "not a url") = Raise InvalidURL
      /\ validate_and_sanitize_url (lit "") = Raise InvalidURL
      /\ validate_and_sanitize_url (lit "ftp//missing-colon") = Raise InvalidURL).
Proof.
  split; [exact validate_rejected|]. split.
  - intros s n. unfold validate_and_sanitize_url.
    destruct (validators_url s); [reflexivity|discriminate].
  - intros Hcolon.
    assert (Hno : forall s, ~ In (ord ":") s ->
                            validate_and_sanitize_url s = Raise InvalidURL).
    { intros s Hs. apply validate_rejected.
      destruct (validators_url s) eqn:E; [|reflexivity].
      exfalso. apply Hs, Hcolon, E. }
    repeat split; apply Hno; cbn; intuition discriminate.
Qed.

(** C9. On a string that the validator rejects the encoder raises the
    validator's error and returns no identifier: whatever
    [validate_and_sanitize_url] raises, [encode_url_to_filename] raises too,
    and for a string that the URL validation rejects this is
    [InvalidURL]. *)
Theorem encode_raises_validation_error (u : str) :
  (forall e, validate_and_sanitize_url u = Raise e ->
             encode_url_to_filename u = Raise e)
  /\ (validators_url u = false -> encode_url_to_filename u = Raise InvalidURL)
  /\ (forall id, encode_url_to_filename u = Ok id ->
                 is_ok (validate_and_sanitize_url u) = true).
Proof.
  unfold encode_url_to_filename. repeat split.
  - intros e E. rewrite E. reflexivity.
  - intros E. rewrite (validate_rejected u E). reflexivity.
  - intros id. destruct (validate_and_sanitize_url u); [reflexivity|discriminate].
Qed.

End ValidatorTheorems.

(** ** The endpoints *)

Section EndpointTheorems.
Context `{Externals} (cfg : Config).

Lemma lookup_written (fs : filesystem) (path : str) (n : node) :
  lookup ((path, n) :: unlink fs path) path = Some n.
Proof. cbn [lookup]. rewrite str_eqb_refl. reflexivity. Qed.

Lemma lookup_unlink (fs : filesystem) (path : str) :
  lookup (unlink fs path) path = None.
Proof.
  unfold unlink. induction fs as [|[p n] fs IH]; [reflexivity|].
  cbn [filter fst]. destruct (str_eqb p path) eqn:E; cbn [negb]; [assumption|].
  cbn [lookup]. rewrite E. assumption.
Qed.

(** C8. When a call of Create on a URL returns, a second call on the same
    URL (whatever its size) computes the same identifier, finds the artifact
    in the store, answers 200 "QR code already exists." with the download
    URL and the links of the first answer, and leaves the store as it is:
    the artifact is not rendered again. *)
Theorem create_twice (request1 request2 : QRCodeRequest)
    (fs fs1 : filesystem) (r1 : response) :
  url request2 = url request1 ->
  create_qr_code cfg request1 fs = (Ok r1, fs1) ->
  exists id ls,
    encode_url_to_filename (url request1) = Ok id
    /\ encode_url_to_filename (url request2) = Ok id
    /\ exists_ fs1 (artifact_path cfg id) = true
    /\ (r1 = JSONResponse 200
               {| message := lit "QR code already exists.";
                  qr_code_url := download_url_of cfg id; links := ls |}
        \/ r1 = Model 201
                  {| message := lit "QR code created successfully.";
                     qr_code_url := download_url_of cfg id; links := ls |})
    /\ create_qr_code cfg request2 fs1
       = (Ok (JSONResponse 200
                {| message := lit "QR code already exists.";
                   qr_code_url := download_url_of cfg id; links := ls |}), fs1).
Proof.
  intros Hu Hc. unfold create_qr_code, mbind, lift in *. rewrite Hu.
  destruct (encode_url_to_filename (url request1)) as [id|e]; [|discriminate].
  destruct (generate_links (lit "create") (id ++ lit ".png") (SERVER_BASE_URL cfg) _)
    as [ls|e]; [|discriminate].
  fold (artifact_path cfg id) in *. fold (download_url_of cfg id) in *.
  exists id, ls.
  destruct (exists_ fs (artifact_path cfg id)) eqn:Ex.
  - unfold ret in Hc. injection Hc as <- <-. rewrite Ex.
    repeat split; auto.
  - unfold generate_qr_code, mbind, lift, save, ret in Hc.
    destruct (qrcode_make _ _ _ _) as [img|e]; [|discriminate].
    destruct (is_dir fs (artifact_path cfg id)); [discriminate|].
    destruct (_ || _); [|discriminate].
    injection Hc as <- <-.
    assert (Ex1 : exists_ ((artifact_path cfg id, File img) :: unlink fs (artifact_path cfg id))
                    (artifact_path cfg id) = true).
    { unfold exists_. rewrite lookup_written. reflexivity. }
    rewrite Ex1. repeat split; auto.
Qed.

Lemma generate_links_list (qr_file base dl u : str) :
  decode_filename_to_url (drop_last4 qr_file) = Ok u ->
  generate_links (lit "list") qr_file base dl
  = Ok [ {| rel := lit "view"; href := dl;
            action := lit "GET"; type := lit "image/png" |};
         {| rel := lit "delete"; href := base ++ lit "/qr-codes/" ++ qr_file;
            action := lit "DELETE"; type := lit "application/json" |} ].
Proof. intros E. unfold generate_links. cbn [str_in existsb str_eqb lit]. cbn. rewrite E. reflexivity. Qed.

Lemma list_entry_eq (qr_file : str) :
  list_entry cfg qr_file
  = (u <- decode_filename_to_url (drop_last4 qr_file) ;; Ok (listed cfg qr_file u))%py.
Proof.
  unfold list_entry.
  destruct (decode_filename_to_url (drop_last4 qr_file)) as [u|e] eqn:E;
    cbn [bind]; [|reflexivity].
  rewrite (generate_links_list _ _ _ u E). reflexivity.
Qed.

Lemma comprehension_raises (qr_files : list str) :
  Exists (fun f => is_ok (decode_filename_to_url (drop_last4 f)) = false) qr_files ->
  exists e, comprehension (list_entry cfg) qr_files = Raise e
            /\ MalformedIdentifier e.
Proof.
  induction 1 as [f fs Hf|f fs _ IH]; cbn [comprehension]; rewrite list_entry_eq.
  - destruct (decode_filename_to_url (drop_last4 f)) as [u|e] eqn:E; [discriminate|].
    exists e. split; [reflexivity|].
    eapply decode_filename_to_url_raises; eassumption.
  - destruct (decode_filename_to_url (drop_last4 f)) as [u|e] eqn:E; cbn [bind].
    + destruct IH as (e & -> & He). exists e. split; [reflexivity|assumption].
    + exists e. split; [reflexivity|].
      eapply decode_filename_to_url_raises; eassumption.
Qed.

Lemma comprehension_returns (qr_files : list str) :
  Forall (fun f => is_ok (decode_filename_to_url (drop_last4 f)) = true) qr_files ->
  exists responses,
    comprehension (list_entry cfg) qr_files = Ok responses
    /\ Forall2 (fun f r => exists u,
                  decode_filename_to_url (drop_last4 f) = Ok u /\ r = listed cfg f u)
         qr_files responses.
Proof.
  induction 1 as [|f fs Hf _ IH]; cbn [comprehension].
  - exists []. split; [reflexivity|constructor].
  - rewrite list_entry_eq.
    destruct (decode_filename_to_url (drop_last4 f)) as [u|e] eqn:E; [|discriminate].
    destruct IH as (rs & -> & Hrs). cbn [bind].
    exists (listed cfg f u :: rs). split; [reflexivity|].
    constructor; [|assumption]. exists u. split; [assumption|reflexivity].
Qed.

(** C3 (amended). When the identifier of a listed file does not decode, the
    List operation fails as a whole, with a malformed-identifier error, and
    returns no entry; when the identifier of every listed file decodes, it
    returns one entry per file, in the order of the listing, each with the
    decoded URL and the view and delete links of the file. *)
Theorem list_fails_as_a_whole (fs : filesystem) (qr_files : list str) :
  list_qr_codes (QR_DIRECTORY cfg) fs = (Ok qr_files, fs) ->
  (Exists (fun f => is_ok (decode_filename_to_url (drop_last4 f)) = false) qr_files ->
   exists e, list_qr_codes_endpoint cfg fs = (Raise e, fs) /\ MalformedIdentifier e)
  /\ (Forall (fun f => is_ok (decode_filename_to_url (drop_last4 f)) = true) qr_files ->
      exists responses,
        list_qr_codes_endpoint cfg fs = (Ok (ModelList 200 responses), fs)
        /\ Forall2 (fun f r => exists u,
                      decode_filename_to_url (drop_last4 f) = Ok u
                      /\ r = listed cfg f u)
             qr_files responses).
Proof.
  intros Hl. unfold list_qr_codes_endpoint, mbind. rewrite Hl. split.
  - intros Hx. destruct (comprehension_raises qr_files Hx) as (e & E & He).
    exists e. split; [|assumption].
    destruct qr_files as [|f fs']; [inversion Hx|].
    unfold lift. rewrite E. reflexivity.
  - intros Ha. destruct (comprehension_returns qr_files Ha) as (rs & E & Hrs).
    exists rs. split; [|assumption].
    destruct qr_files as [|f fs'].
    + inversion Hrs. reflexivity.
    + unfold lift, ret. rewrite E. reflexivity.
Qed.

(** Delete on a name with no file in the store: 404. *)
Lemma delete_absent_not_found (qr_filename : str) (fs : filesystem) :
  is_file fs (Path_truediv (QR_DIRECTORY cfg) qr_filename) = false ->
  delete_qr_code_endpoint cfg qr_filename fs = (Raise NotFound, fs).
Proof. intros E. unfold delete_qr_code_endpoint. rewrite E. reflexivity. Qed.

Lemma startswith_slash_join (a b : str) :
  startswith (lit "/") b = true -> os_path.join a b = b.
Proof. intros E. unfold os_path.join. rewrite E. reflexivity. Qed.

Lemma startswith_slash_app (a b : str) :
  startswith (lit "/") a = true -> startswith (lit "/") (a ++ b) = true.
Proof. destruct a as [|c a]; [discriminate|]. cbn. trivial. Qed.

(** With an absolute store directory the helper is handed a path that
    [os.path.join] keeps as it is, and Delete removes the file. *)
Lemma delete_removes_in_absolute_store (qr_filename : str) (fs : filesystem) :
  startswith (lit "/") (QR_DIRECTORY cfg) = true ->
  is_file fs (Path_truediv (QR_DIRECTORY cfg) qr_filename) = true ->
  delete_qr_code_endpoint cfg qr_filename fs
  = (Ok (Response 204), unlink fs (Path_truediv (QR_DIRECTORY cfg) qr_filename))
  /\ exists_ (unlink fs (Path_truediv (QR_DIRECTORY cfg) qr_filename))
       (Path_truediv (QR_DIRECTORY cfg) qr_filename) = false.
Proof.
  intros Habs Hf. split.
  - unfold delete_qr_code_endpoint, delete_qr_code, mbind. rewrite Hf. cbn [negb].
    assert (Hp : startswith (lit "/") (Path_truediv (QR_DIRECTORY cfg) qr_filename) = true).
    { unfold Path_truediv, os_path.join.
      destruct (startswith (lit "/") qr_filename) eqn:E; [assumption|].
      destruct (_ || _); [|]; apply startswith_slash_app; assumption. }
    rewrite (startswith_slash_join _ _ Hp).
    assert (He : exists_ fs (Path_truediv (QR_DIRECTORY cfg) qr_filename) = true).
    { unfold exists_, is_file in *.
      destruct (lookup fs _); [reflexivity|discriminate]. }
    rewrite He. unfold os_remove. rewrite Hf. reflexivity.
  - unfold exists_. rewrite lookup_unlink. reflexivity.
Qed.

(** C4. Under the default configuration, Delete on the name of a stored
    artifact answers 204 and leaves the store as it was: the helper looks
    for the file under [qr_codes/qr_codes/], finds nothing and removes
    nothing, and the next listing still has the name. *)
Theorem delete_leaves_artifact (img : Image) :
  let fs := [ (lit "qr_codes", Directory); (lit "qr_codes/YWJj.png", File img) ] in
  is_file fs (Path_truediv (QR_DIRECTORY default_config) (lit "YWJj.png")) = true
  /\ delete_qr_code_endpoint default_config (lit "YWJj.png") fs
     = (Ok (Response 204), fs)
  /\ fst (list_qr_codes (QR_DIRECTORY default_config) fs) = Ok [lit "YWJj.png"].
Proof. repeat split. Qed.

End EndpointTheorems.

(** ** The theorems on concrete input *)

Lemma startswith_app (p s : str) :
  startswith p s = true -> exists t, s = p ++ t.
Proof.
  revert s; induction p as [|c p IH]; intros s E.
  - exists s; reflexivity.
  - destruct s as [|d s]; [discriminate|]. cbn [startswith] in E.
    apply andb_true_iff in E as [Ec Es]. apply Z.eqb_eq in Ec; subst d.
    destruct (IH s Es) as [t ->]. exists t; reflexivity.
Qed.

Lemma sample_validators_url_colon (s : str) :
  sample_validators_url s = true -> In (ord ":") s.
Proof.
  unfold sample_validators_url. intros E.
  apply andb_true_iff in E as [E _]. apply orb_true_iff in E as [E|E];
    apply startswith_app in E as [t ->]; apply in_or_app; left; cbn; tauto.
Qed.

(** The URL [http://a.io/] followed by U+00E9 and U+20AC. *)
Lemma decode_encode_roundtrip_witness :
  let u := lit "http://a.io/" ++ [233; 8364] in
  @validate_and_sanitize_url sample_externals u = Ok u
  /\ @encode_url_to_filename sample_externals u = Ok (lit "aHR0cDovL2EuaW8vw6nigqw")
  /\ decode_filename_to_url (lit "aHR0cDovL2EuaW8vw6nigqw")
     = @validate_and_sanitize_url sample_externals u.
Proof.
  intros u. split; [reflexivity|]. split; [reflexivity|].
  apply (@decode_encode_roundtrip sample_externals u u eq_refl); reflexivity.
Defined.

(** C2, the claim as stated fails: on the four characters [YWJj] the decoder
    appends four pads, not none; and the five characters [YWJj!] decode to
    [abc]. *)
Lemma padding_claim_counterexample :
  (len (lit "YWJj") mod 4 = 0
   /\ padding_needed (lit "YWJj") = 4
   /\ repadded (lit "YWJj") = lit "YWJj====")
  /\ (len (lit "YWJj!") mod 4 = 1
      /\ decode_filename_to_url (lit "YWJj!") = Ok (lit "abc")).
Proof. repeat split. Qed.

Lemma padding_needed_by_remainder_witness :
  len (lit "YWJjZ") mod 4 = 1
  /\ forallb b64_data (lit "YWJjZ") = true
  /\ padding_needed (lit "YWJjZ") = 3
  /\ exists msg, decode_filename_to_url (lit "YWJjZ") = Raise (binascii_Error msg)
                 /\ MalformedIdentifier (binascii_Error msg).
Proof.
  destruct (padding_needed_by_remainder (lit "YWJjZ")) as (H1 & _ & _ & _ & _ & H6).
  split; [reflexivity|]. split; [reflexivity|].
  split; [apply H1; reflexivity|apply H6; reflexivity].
Defined.

(** C6, the claim as stated fails: [YWJj!] repadded is [YWJj!===], which is
    not URL-safe base-64, and the decoder returns [abc]. *)
Lemma decode_claim_counterexample :
  repadded (lit "YWJj!") = lit "YWJj!==="
  /\ valid_urlsafe_base64 (repadded (lit "YWJj!")) = false
  /\ decode_filename_to_url (lit "YWJj!") = Ok (lit "abc").
Proof. repeat split. Qed.

Lemma decode_fails_exactly_witness :
  Forall (fun c => c <> ord "=") (lit "YWJj!")
  /\ data_count (lit "YWJj!") mod 4 = 0
  /\ is_ok (base64.urlsafe_b64decode (repadded (lit "YWJj!"))) = true.
Proof.
  assert (Hp : Forall (fun c => c <> ord "=") (lit "YWJj!"))
    by (repeat constructor; discriminate).
  split; [exact Hp|]. split; [reflexivity|].
  destruct (decode_fails_exactly (lit "YWJj!")) as (_ & _ & _ & H4).
  destruct (H4 Hp) as [H _]. apply not_false_is_true. intros E.
  destruct (H E) as [N|[N|[N _]]].
  - apply N. repeat constructor; unfold is_ascii; cbn; lia.
  - discriminate.
  - discriminate.
Defined.

Lemma generate_links_create_list_witness :
  is_ok (decode_filename_to_url (lit "YWJj")) = true
  /\ generate_links (lit "create") (lit "YWJj.png") (lit "http://x")
       (lit "http://x/downloads/YWJj.png")
     = Ok [ {| rel := lit "view"; href := lit "http://x/downloads/YWJj.png";
               action := lit "GET"; type := lit "image/png" |};
            {| rel := lit "delete"; href := lit "http://x/qr-codes/YWJj.png";
               action := lit "DELETE"; type := lit "application/json" |} ].
Proof.
  split; [reflexivity|].
  apply (generate_links_create_list (lit "create") (lit "YWJj") (lit "http://x")
           (lit "http://x/downloads/YWJj.png")); [left|]; reflexivity.
Defined.

(** The action "update", on a file name that does not decode. *)
Lemma generate_links_without_decoding_witness :
  is_ok (decode_filename_to_url (drop_last4 (lit "a.png"))) = false
  /\ ~ In (lit "update") [lit "list"; lit "create"; lit "delete"]
  /\ generate_links (lit "update") (lit "a.png") (lit "http://x")
       (lit "http://x/downloads/a.png") = Ok []
  /\ generate_links (lit "delete") (lit "a.png") (lit "http://x")
       (lit "http://x/downloads/a.png")
     = Ok [ {| rel := lit "delete"; href := lit "http://x/qr-codes/a.png";
               action := lit "DELETE"; type := lit "application/json" |} ].
Proof.
  assert (Hn : ~ In (lit "update") [lit "list"; lit "create"; lit "delete"]).
  { cbn. intuition discriminate. }
  destruct (generate_links_without_decoding (lit "update") (lit "a.png")
              (lit "http://x") (lit "http://x/downloads/a.png")) as [H1 _].
  destruct (generate_links_without_decoding (lit "delete") (lit "a.png")
              (lit "http://x") (lit "http://x/downloads/a.png")) as [_ H2].
  split; [reflexivity|]. split; [exact Hn|]. split; [exact (H1 Hn)|exact H2].
Defined.

Lemma validator_rejects_non_urls_witness :
  (forall s, @validators_url sample_externals s = true -> In (ord ":") s)
  /\ @validators_url sample_externals (lit "not a url") = false
  /\ @validate_and_sanitize_url sample_externals (lit "not a url") = Raise InvalidURL
  /\ @validate_and_sanitize_url sample_externals (lit "") = Raise InvalidURL
  /\ @validate_and_sanitize_url sample_externals (lit "ftp//missing-colon")
     = Raise InvalidURL.
Proof.
  destruct (@validator_rejects_non_urls sample_externals) as (_ & _ & H).
  destruct (H sample_validators_url_colon) as (H1 & H2 & H3).
  split; [exact sample_validators_url_colon|]. split; [reflexivity|].
  split; [exact H1|]. split; [exact H2|exact H3].
Defined.

Lemma encode_raises_validation_error_witness :
  @validators_url sample_externals (lit "not a url") = false
  /\ @encode_url_to_filename sample_externals (lit "not a url") = Raise InvalidURL.
Proof.
  destruct (@encode_raises_validation_error sample_externals (lit "not a url"))
    as (_ & H2 & _).
  split; [reflexivity|apply H2; reflexivity].
Defined.

(** Create, twice, on [http://a.io], in a store that is empty at first. *)
Lemma create_twice_witness :
  let request1 := {| url := lit "http://a.io"; size := 10 |} in
  let request2 := {| url := lit "http://a.io"; size := 20 |} in
  let fs := [ (lit "qr_codes", @Directory sample_externals) ] in
  exists r1 fs1,
    @create_qr_code sample_externals default_config request1 fs = (Ok r1, fs1)
    /\ exists id ls,
         @encode_url_to_filename sample_externals (url request1) = Ok id
         /\ @encode_url_to_filename sample_externals (url request2) = Ok id
         /\ exists_ fs1 (artifact_path default_config id) = true
         /\ (r1 = JSONResponse 200
                    {| message := lit "QR code already exists.";
                       qr_code_url := download_url_of default_config id;
                       links := ls |}
             \/ r1 = Model 201
                       {| message := lit "QR code created successfully.";
                          qr_code_url := download_url_of default_config id;
                          links := ls |})
         /\ @create_qr_code sample_externals default_config request2 fs1
            = (Ok (JSONResponse 200
                     {| message := lit "QR code already exists.";
                        qr_code_url := download_url_of default_config id;
                        links := ls |}), fs1).
Proof.
  intros request1 request2 fs. eexists. eexists. split.
  - vm_compute. reflexivity.
  - apply (@create_twice sample_externals default_config request1 request2 fs);
      reflexivity.
Defined.

(** C3, the claim as stated fails: the store holds [YWJj.png], whose
    identifier decodes, and [a.png], whose identifier does not; the listing
    raises and returns no entry. *)
Lemma list_isolation_counterexample :
  fst (@list_qr_codes sample_externals (QR_DIRECTORY default_config) corrupt_store)
  = Ok [lit "YWJj.png"; lit "a.png"]
  /\ decode_filename_to_url (lit "YWJj") = Ok (lit "abc")
  /\ is_ok (decode_filename_to_url (lit "a")) = false
  /\ (forall r, fst (list_qr_codes_endpoint default_config corrupt_store) <> Ok r).
Proof. repeat split. intros r. vm_compute. discriminate. Qed.

Lemma list_fails_as_a_whole_witness :
  @list_qr_codes sample_externals (QR_DIRECTORY default_config) corrupt_store
  = (Ok [lit "YWJj.png"; lit "a.png"], corrupt_store)
  /\ Exists (fun f => is_ok (decode_filename_to_url (drop_last4 f)) = false)
       [lit "YWJj.png"; lit "a.png"]
  /\ exists e, list_qr_codes_endpoint default_config corrupt_store
               = (Raise e, corrupt_store)
               /\ MalformedIdentifier e.
Proof.
  assert (Hx : Exists (fun f => is_ok (decode_filename_to_url (drop_last4 f)) = false)
                 [lit "YWJj.png"; lit "a.png"])
    by (apply Exists_cons_tl, Exists_cons_hd; reflexivity).
  split; [reflexivity|]. split; [exact Hx|].
  destruct (@list_fails_as_a_whole sample_externals default_config corrupt_store
              [lit "YWJj.png"; lit "a.png"] eq_refl) as [H1 _].
  exact (H1 Hx).
Defined.

(** * Further properties *)

(** ** More on the codec *)

Lemma a2b_loop_pads_at_zero (l p : Z) (m : nat) (bin : bytes) :
  binascii.a2b_loop 0 l p (repeat 61 m) bin = Ok bin.
Proof.
  induction m as [|m IH]; [reflexivity|].
  cbn [repeat]. rewrite a2b_loop_pad. exact IH.
Qed.

(** The decoder on the characters of [data] followed by at least the pads of
    its last group. *)
Lemma a2b_loop_roundtrip_pads (data : bytes) :
  Forall is_octet data ->
  forall l p bin m, (b2a_pads data <= m)%nat ->
    binascii.a2b_loop 0 l p (map binascii.b2a (sextets data) ++ repeat 61 m) bin
    = Ok (bin ++ data).
Proof.
  induction data as [|a|a b|a b c r IH] using list_ind3; intros Hd l p bin m Hm.
  - cbn [sextets map app]. rewrite a2b_loop_pads_at_zero, app_nil_r. reflexivity.
  - inversion_clear Hd as [|? ? Ha _]. unfold is_octet in Ha.
    cbn [b2a_pads] in Hm. destruct m as [|[|m]]; [lia|lia|].
    cbn [sextets map app repeat].
    rewrite !a2b_loop_sextet by (unfold is_sextet; dlia).
    change (0 =? 0) with true; change (1 =? 0) with false;
      change (1 =? 1) with true; cbv iota.
    rewrite !a2b_loop_pad.
    cbn [Z.leb Z.add Z.compare Pos.compare Pos.compare_cont Pos.add Pos.succ].
    repeat f_equal; dlia.
  - inversion_clear Hd as [|? ? Ha Hd']. inversion_clear Hd' as [|? ? Hb _].
    unfold is_octet in Ha, Hb.
    cbn [b2a_pads] in Hm. destruct m as [|m]; [lia|].
    cbn [sextets map app repeat].
    rewrite !a2b_loop_sextet by (unfold is_sextet; dlia).
    change (0 =? 0) with true; change (1 =? 0) with false;
      change (1 =? 1) with true; change (2 =? 0) with false;
      change (2 =? 1) with false; change (2 =? 2) with true; cbv iota.
    rewrite !a2b_loop_pad.
    cbn [Z.leb Z.add Z.compare Pos.compare Pos.compare_cont Pos.add Pos.succ].
    rewrite <- !app_assoc. cbn [app]. repeat f_equal; dlia.
  - inversion_clear Hd as [|? ? Ha Hd1]. inversion_clear Hd1 as [|? ? Hb Hd2].
    inversion_clear Hd2 as [|? ? Hc Hr].
    cbn [sextets b2a_pads map app] in *.
    rewrite a2b_loop_quad by assumption.
    rewrite (IH Hr _ _ _ m Hm), <- app_assoc. reflexivity.
Qed.

Lemma length_sextets (data : bytes) :
  Z.of_nat (length (sextets data)) = (4 * Z.of_nat (length data) + 2) / 3.
Proof.
  induction data as [|a|a b|a b c r IH] using list_ind3; try reflexivity.
  cbn [sextets length].
  replace (Z.of_nat (S (S (S (S (length (sextets r)))))))
    with (Z.of_nat (length (sextets r)) + 4) by lia.
  rewrite IH.
  replace (4 * Z.of_nat (S (S (S (length r)))) + 2)
    with (4 * Z.of_nat (length r) + 2 + 4 * 3) by lia.
  rewrite Z.div_add by lia. reflexivity.
Qed.

Lemma length_sextets_pads (data : bytes) :
  (Z.of_nat (length (sextets data)) + Z.of_nat (b2a_pads data)) mod 4 = 0
  /\ (b2a_pads data <= 2)%nat.
Proof.
  induction data as [|a|a b|a b c r IH] using list_ind3;
    try (split; [reflexivity|cbn; lia]).
  cbn [sextets length b2a_pads]. destruct IH as [IH1 IH2]. split; [|assumption].
  replace (Z.of_nat (S (S (S (S (length (sextets r)))))) + Z.of_nat (b2a_pads r))
    with (Z.of_nat (length (sextets r)) + Z.of_nat (b2a_pads r) + 1 * 4) by lia.
  rewrite Z.mod_add by lia. assumption.
Qed.

Lemma len_identifier (data : bytes) :
  len (identifier_of data) = Z.of_nat (length (sextets data)).
Proof. unfold len, identifier_of. rewrite !length_map. reflexivity. Qed.

Lemma repeat_app_pad (a b : nat) : repeat 61 a ++ repeat 61 b = repeat 61 (a + b).
Proof. symmetry. apply repeat_app. Qed.

(** The identifier followed by any number of pads decodes to the bytes. *)
Lemma urlsafe_b64decode_identifier_pads (data : bytes) (k : nat) :
  Forall is_octet data ->
  base64.urlsafe_b64decode (repadded (identifier_of data ++ repeat 61 k)) = Ok data.
Proof.
  intros Hd. rewrite repadded_eq, <- app_assoc, repeat_app_pad.
  pose proof (padding_needed_range (identifier_of data ++ repeat 61 k)) as Hr.
  unfold base64.urlsafe_b64decode.
  rewrite bytes_from_decode_data_ascii.
  - cbn [bind]. rewrite map_app, identifier_translated, map_repeat_pad
      by (assumption || reflexivity).
    unfold binascii.a2b_base64.
    apply (a2b_loop_roundtrip_pads data Hd 0 0 []).
    destruct (length_sextets_pads data) as [Hm Hp].
    assert (Hlen : len (identifier_of data ++ repeat 61 k)
                   = Z.of_nat (length (sextets data)) + Z.of_nat k).
    { unfold len, identifier_of. rewrite length_app, repeat_length, !length_map. lia. }
    unfold padding_needed in *. rewrite Hlen in *. dlia.
  - apply Forall_app; split; [|apply repeat_pad_ascii].
    eapply Forall_impl; [|apply identifier_chars; assumption].
    intros c [Hc _]. apply urlsafe_char_ascii; assumption.
Qed.

Section CodecExtras.
Context `{Externals}.

(** What an identifier that the encoder returns is made from. *)
Lemma encode_url_to_filename_inv (u id : str) :
  encode_url_to_filename u = Ok id ->
  exists n data,
    validate_and_sanitize_url u = Ok n
    /\ utf8.encode n = Ok data
    /\ Forall is_octet data
    /\ id = identifier_of data.
Proof.
  intros E.
  destruct (validate_and_sanitize_url u) as [n|e] eqn:Hv;
    [|unfold encode_url_to_filename in E; rewrite Hv in E; discriminate].
  destruct (utf8.encode n) as [data|e] eqn:Hd.
  - exists n, data. rewrite (encode_url_to_filename_ok u n data Hv Hd) in E.
    apply Ok_inj in E. repeat split; auto.
    eapply utf8_encode_octets; eassumption.
  - unfold encode_url_to_filename in E. rewrite Hv in E. cbn [bind] in E.
    rewrite Hd in E. discriminate.
Qed.

Lemma decode_identifier_pads (n : str) (data : bytes) (k : nat) :
  utf8.encode n = Ok data ->
  decode_filename_to_url (identifier_of data ++ repeat 61 k) = Ok n.
Proof.
  intros Hd. unfold decode_filename_to_url.
  rewrite urlsafe_b64decode_identifier_pads
    by (eapply utf8_encode_octets; eassumption).
  cbn [bind]. apply utf8_decode_encode; assumption.
Qed.

Lemma decode_identifier (n : str) (data : bytes) :
  utf8.encode n = Ok data ->
  decode_filename_to_url (identifier_of data) = Ok n.
Proof.
  intros Hd. rewrite <- (app_nil_r (identifier_of data)).
  apply (decode_identifier_pads n data 0 Hd).
Qed.

(** X1. Every identifier that [encode_url_to_filename] returns is made of the
    characters [A-Z a-z 0-9 - _] only: it has no pad [=], no path separator
    [/], no [+] and no dot. *)
Theorem identifier_is_filename_safe (u id : str) :
  encode_url_to_filename u = Ok id ->
  forallb urlsafe_char id = true
  /\ ~ In (ord "=") id /\ ~ In (ord "/") id
  /\ ~ In (ord "+") id /\ ~ In (ord ".") id.
Proof.
  intros E. destruct (encode_url_to_filename_inv u id E) as (n & data & _ & _ & Hd & ->).
  pose proof (identifier_chars data Hd) as Hc. rewrite Forall_forall in Hc.
  assert (Hall : forallb urlsafe_char (identifier_of data) = true).
  { apply forallb_forall. intros c Hin. apply Hc; assumption. }
  split; [assumption|].
  rewrite forallb_forall in Hall.
  repeat split; intros Hin; apply Hall in Hin; discriminate.
Qed.


(** X3. The identifier of a URL whose normal form takes [b] bytes of UTF-8 has
    [ceil(4 b / 3)] characters, and its length is never 1 modulo 4. *)
Theorem identifier_length (u n : str) (data : bytes) :
  validate_and_sanitize_url u = Ok n ->
  utf8.encode n = Ok data ->
  exists id,
    encode_url_to_filename u = Ok id
    /\ len id = (4 * len data + 2) / 3
    /\ len id mod 4 <> 1.
Proof.
  intros Hv Hd. exists (identifier_of data).
  split; [apply (encode_url_to_filename_ok u n data Hv Hd)|].
  rewrite len_identifier, length_sextets. unfold len. split; [reflexivity|]. dlia.
Qed.

(** X4. The decoder takes an identifier with any number of pad characters
    appended (the padded form of standard base-64 among them) and returns the
    same URL as for the bare identifier. *)
Theorem decode_ignores_appended_pads (u id : str) (k : Z) :
  encode_url_to_filename u = Ok id ->
  decode_filename_to_url (id ++ str_mul (lit "=") k) = validate_and_sanitize_url u.
Proof.
  intros E. destruct (encode_url_to_filename_inv u id E) as (n & data & -> & Hd & _ & ->).
  rewrite str_mul_pad. apply decode_identifier_pads; assumption.
Qed.

End CodecExtras.

(** ** More on the link builder *)

Lemma decode_empty : decode_filename_to_url [] = Ok [].
Proof. reflexivity. Qed.

Lemma drop_last4_short (s : str) : len s <= 4 -> drop_last4 s = [].
Proof.
  unfold len, drop_last4. intros Hl.
  replace (length s - 4)%nat with 0%nat by lia. reflexivity.
Qed.

Lemma generate_links_view_delete (action f base_api_url download_url : str) :
  action = lit "create" \/ action = lit "list" ->
  generate_links action f base_api_url download_url
  = (_ <- decode_filename_to_url (drop_last4 f) ;;
     Ok [ {| rel := lit "view"; href := download_url;
             action := lit "GET"; type := lit "image/png" |};
          {| rel := lit "delete";
             href := base_api_url ++ lit "/qr-codes/" ++ f;
             action := lit "DELETE"; type := lit "application/json" |} ]).
Proof.
  intros [-> | ->]; unfold generate_links;
    destruct (decode_filename_to_url (drop_last4 f)); reflexivity.
Qed.

(** X5. With the action "list" or "create" the link builder never looks at
    the last four characters of the file name: whatever they are, it raises
    the decoder's error, and returns no link, when the rest of the name does
    not decode, and returns the view and the delete link when it does; a name
    of at most four characters always gives the two links. *)
Theorem generate_links_on_any_name (action f base_api_url download_url : str) :
  action = lit "create" \/ action = lit "list" ->
  let two_links :=
    [ {| rel := lit "view"; href := download_url;
         action := lit "GET"; type := lit "image/png" |};
      {| rel := lit "delete";
         href := base_api_url ++ lit "/qr-codes/" ++ f;
         action := lit "DELETE"; type := lit "application/json" |} ] in
  (forall e, decode_filename_to_url (drop_last4 f) = Raise e ->
             generate_links action f base_api_url download_url = Raise e
             /\ MalformedIdentifier e)
  /\ (is_ok (decode_filename_to_url (drop_last4 f)) = true ->
      generate_links action f base_api_url download_url = Ok two_links)
  /\ (len f <= 4 ->
      generate_links action f base_api_url download_url = Ok two_links).
Proof.
  intros Ha two_links. rewrite (generate_links_view_delete _ _ _ _ Ha).
  fold two_links. repeat split.
  - rewrite H. reflexivity.
  - eapply decode_filename_to_url_raises; eassumption.
  - destruct (decode_filename_to_url (drop_last4 f)); [reflexivity|discriminate].
  - intros Hl. rewrite (drop_last4_short f Hl), decode_empty. reflexivity.
Qed.

(** ** More on paths and the store *)

Lemma startswith_prefix (p t : str) : startswith p (p ++ t) = true.
Proof.
  induction p as [|c p IH]; [reflexivity|].
  cbn [app startswith]. rewrite Z.eqb_refl. exact IH.
Qed.

Lemma str_eqb_length (a b : str) : length a <> length b -> str_eqb a b = false.
Proof. intros N. apply str_eqb_neq. intros ->. apply N; reflexivity. Qed.

Lemma endswith_png (f : str) :
  endswith (lit ".png") f = true -> f = drop_last4 f ++ lit ".png".
Proof.
  unfold endswith. intros E. apply startswith_app in E as [t Ht].
  assert (Hf : f = rev t ++ lit ".png").
  { rewrite <- (rev_involutive f), Ht, rev_app_distr. reflexivity. }
  rewrite Hf at 1. rewrite Hf, drop_last4_png. reflexivity.
Qed.

Lemma endswith_png_app (s : str) : endswith (lit ".png") (s ++ lit ".png") = true.
Proof. unfold endswith. rewrite rev_app_distr. apply startswith_prefix. Qed.

Lemma plain_name_not_absolute (name : str) :
  plain_name name -> startswith (lit "/") name = false.
Proof.
  intros [Hn Hs]. destruct name as [|c name]; [contradiction|].
  cbn [existsb] in Hs. apply orb_false_iff in Hs as [Hc _].
  change (startswith (lit "/") (c :: name)) with ((47 =? c) && true).
  rewrite Hc. reflexivity.
Qed.

Lemma join_proper (d name : str) :
  proper_directory d -> plain_name name ->
  os_path.join d name = d ++ lit "/" ++ name.
Proof.
  intros [Hd He] Hn. unfold os_path.join.
  rewrite (plain_name_not_absolute name Hn), He.
  destruct d as [|c d]; [contradiction|]. reflexivity.
Qed.


Lemma child_name_join (d name : str) :
  plain_name name -> child_name d (d ++ lit "/" ++ name) = Some name.
Proof.
  intros [Hn Hs]. unfold child_name.
  rewrite app_assoc, startswith_prefix.
  replace (length d + 1)%nat with (length (d ++ lit "/")) by (rewrite length_app; reflexivity).
  rewrite skipn_app, skipn_all, Nat.sub_diag. cbn [skipn app].
  rewrite Hs. destruct name as [|c name]; [contradiction|]. reflexivity.
Qed.

Lemma child_name_inv (d p name : str) :
  child_name d p = Some name -> p = d ++ lit "/" ++ name /\ plain_name name.
Proof.
  unfold child_name. destruct (startswith (d ++ lit "/") p) eqn:E; [|discriminate].
  apply startswith_app in E as [t ->].
  replace (length d + 1)%nat with (length (d ++ lit "/")) by (rewrite length_app; reflexivity).
  rewrite skipn_app, skipn_all, Nat.sub_diag. cbn [skipn app].
  destruct (negb (len t =? 0)) eqn:E1; [|discriminate].
  destruct (negb (existsb (Z.eqb 47) t)) eqn:E2; [|discriminate].
  cbn [andb]. intros E; injection E as <-. split.
  - rewrite <- app_assoc. reflexivity.
  - split.
    + intros ->. discriminate.
    + destruct (existsb (Z.eqb 47) t); [discriminate|reflexivity].
Qed.

Lemma identifier_name_plain (id : str) :
  forallb urlsafe_char id = true -> plain_name (id ++ lit ".png").
Proof.
  intros Hc. split.
  - destruct id; discriminate.
  - rewrite existsb_app. apply orb_false_iff. split; [|reflexivity].
    destruct (existsb (Z.eqb 47) id) eqn:E; [|reflexivity].
    apply existsb_exists in E as (c & Hin & Ec). apply Z.eqb_eq in Ec; subst c.
    rewrite forallb_forall in Hc. apply Hc in Hin. discriminate.
Qed.

Section StoreExtras.
Context `{Externals}.

Lemma unlink_absent (fs : filesystem) (path : str) :
  exists_ fs path = false -> unlink fs path = fs.
Proof.
  unfold exists_, unlink. induction fs as [|[p n] fs IH]; [reflexivity|].
  cbn [lookup filter fst]. destruct (str_eqb p path); [discriminate|].
  intros E. cbn [negb]. rewrite IH by assumption. reflexivity.
Qed.

Lemma lookup_unlink_other (fs : filesystem) (path q : str) :
  q <> path -> lookup (unlink fs path) q = lookup fs q.
Proof.
  intros N. unfold unlink. induction fs as [|[p n] fs IH]; [reflexivity|].
  cbn [filter fst lookup]. destruct (str_eqb p path) eqn:E; cbn [negb].
  - apply str_eqb_eq in E; subst p. rewrite IH.
    rewrite str_eqb_neq by congruence. reflexivity.
  - cbn [lookup]. rewrite IH. reflexivity.
Qed.

Lemma lookup_in (fs : filesystem) (path : str) (n : node) :
  lookup fs path = Some n -> In (path, n) fs.
Proof.
  induction fs as [|[p m] fs IH]; [discriminate|].
  cbn [lookup]. destruct (str_eqb p path) eqn:E.
  - apply str_eqb_eq in E; subst p. intros E; injection E as ->. left; reflexivity.
  - intros E'. right. apply IH; assumption.
Qed.

Lemma in_lookup (fs : filesystem) (path : str) (n : node) :
  In (path, n) fs -> exists_ fs path = true.
Proof.
  unfold exists_. induction fs as [|[p m] fs IH]; [contradiction|].
  intros [E|Hin]; cbn [lookup].
  - injection E as -> ->. rewrite str_eqb_refl. reflexivity.
  - destruct (str_eqb p path); [reflexivity|]. apply IH; assumption.
Qed.

Lemma children_in (d : str) (fs : filesystem) (name : str) :
  In name (children d fs) <->
  exists p n, In (p, n) fs /\ child_name d p = Some name.
Proof.
  induction fs as [|[p n] fs IH]; cbn [children].
  - split; [contradiction|]. intros (p & n & [] & _).
  - destruct (child_name d p) as [name'|] eqn:E.
    + cbn [In]. rewrite IH. split.
      * intros [<-|(q & m & Hin & Hq)].
        -- exists p, n. split; [left; reflexivity|assumption].
        -- exists q, m. split; [right; assumption|assumption].
      * intros (q & m & [Eq|Hin] & Hq).
        -- injection Eq as <- <-. left. congruence.
        -- right. exists q, m. split; assumption.
    + rewrite IH. split.
      * intros (q & m & Hin & Hq). exists q, m. split; [right; assumption|assumption].
      * intros (q & m & [Eq|Hin] & Hq).
        -- injection Eq as <- <-. congruence.
        -- exists q, m. split; assumption.
Qed.

Lemma unlink_in (fs : filesystem) (path p : str) (n : node) :
  In (p, n) (unlink fs path) <-> In (p, n) fs /\ p <> path.
Proof.
  unfold unlink. rewrite filter_In. cbn [fst]. split.
  - intros [Hin E]. split; [assumption|]. intros ->.
    rewrite str_eqb_refl in E. discriminate.
  - intros [Hin N]. split; [assumption|]. rewrite str_eqb_neq by assumption.
    reflexivity.
Qed.

End StoreExtras.

(** ** More on the endpoints *)

Section EndpointExtras.
Context `{Externals} (cfg : Config).

Lemma generate_links_created (u id : str) :
  encode_url_to_filename u = Ok id ->
  generate_links (lit "create") (id ++ lit ".png") (SERVER_BASE_URL cfg)
    (download_url_of cfg id)
  = Ok (created_links cfg id).
Proof.
  intros E. destruct (encode_url_to_filename_inv u id E) as (n & data & _ & Hd & _ & ->).
  rewrite generate_links_view_delete by (left; reflexivity).
  rewrite drop_last4_png, (decode_identifier n data Hd). reflexivity.
Qed.

(** [create_qr_code] after the encoder has returned. *)
Lemma create_qr_code_encoded (request : QRCodeRequest) (id : str) (fs : filesystem) :
  encode_url_to_filename (url request) = Ok id ->
  create_qr_code cfg request fs
  = if exists_ fs (artifact_path cfg id) then
      (Ok (JSONResponse 200
             {| message := lit "QR code already exists.";
                qr_code_url := download_url_of cfg id;
                links := created_links cfg id |}), fs)
    else
      match qrcode_make (url request) (FILL_COLOR cfg) (BACK_COLOR cfg) (size request) with
      | Raise e => (Raise e, fs)
      | Ok img =>
          match save img (artifact_path cfg id) fs with
          | (Ok _, fs1) =>
              (Ok (Model 201
                     {| message := lit "QR code created successfully.";
                        qr_code_url := download_url_of cfg id;
                        links := created_links cfg id |}), fs1)
          | (Raise e, fs1) => (Raise e, fs1)
          end
      end.
Proof.
  intros E. unfold create_qr_code, mbind, lift. rewrite E.
  fold (artifact_path cfg id). fold (download_url_of cfg id).
  rewrite (generate_links_created _ _ E).
  destruct (exists_ fs (artifact_path cfg id)); [reflexivity|].
  unfold generate_qr_code, mbind, lift.
  destruct (qrcode_make _ _ _ _); [|reflexivity].
  destruct (save _ _ fs) as [[[]|e] fs1]; reflexivity.
Qed.

Lemma save_outcome (img : Image) (path : str) (fs : filesystem) :
  exists_ fs path = false ->
  save img path fs = (Ok tt, (path, File img) :: fs)
  \/ exists e, save img path fs = (Raise e, fs).
Proof.
  intros Ex. unfold save.
  destruct (is_dir fs path); [right; eexists; reflexivity|].
  destruct (_ || _).
  - left. rewrite (unlink_absent fs path Ex). reflexivity.
  - right; eexists; reflexivity.
Qed.

(** X6. Create changes the store in one way only: it adds the image rendered
    from the URL as it was sent, as a new file at the artifact path of the
    identifier, on top of a store that had nothing there, and then answers
    201.  In every other case, and whenever it raises, it leaves the store as
    it was; it never replaces or removes a file. *)
Theorem create_only_adds (request : QRCodeRequest) (fs fs1 : filesystem)
    (r : result response) :
  create_qr_code cfg request fs = (r, fs1) ->
  (is_ok r = false -> fs1 = fs)
  /\ (fs1 = fs
      \/ exists id img,
           encode_url_to_filename (url request) = Ok id
           /\ exists_ fs (artifact_path cfg id) = false
           /\ qrcode_make (url request) (FILL_COLOR cfg) (BACK_COLOR cfg)
                (size request) = Ok img
           /\ fs1 = (artifact_path cfg id, File img) :: fs
           /\ r = Ok (Model 201
                        {| message := lit "QR code created successfully.";
                           qr_code_url := download_url_of cfg id;
                           links := created_links cfg id |})).
Proof.
  intros Hc.
  destruct (encode_url_to_filename (url request)) as [id|e] eqn:E.
  - rewrite (create_qr_code_encoded request id fs E) in Hc.
    destruct (exists_ fs (artifact_path cfg id)) eqn:Ex.
    { injection Hc as <- <-. split; [discriminate|left; reflexivity]. }
    destruct (qrcode_make _ _ _ _) as [img|e] eqn:Eq.
    2:{ injection Hc as <- <-. split; [reflexivity|left; reflexivity]. }
    destruct (save_outcome img _ fs Ex) as [Es|[e Es]]; rewrite Es in Hc;
      injection Hc as <- <-.
    + split; [discriminate|]. right. exists id, img. repeat split; auto.
    + split; [reflexivity|left; reflexivity].
  - unfold create_qr_code, mbind, lift in Hc. rewrite E in Hc.
    injection Hc as <- <-. split; [reflexivity|left; reflexivity].
Qed.

Lemma artifact_path_proper (id : str) :
  proper_directory (QR_DIRECTORY cfg) ->
  forallb urlsafe_char id = true ->
  artifact_path cfg id = QR_DIRECTORY cfg ++ lit "/" ++ (id ++ lit ".png").
Proof.
  intros Hd Hi. unfold artifact_path, Path_truediv.
  apply join_proper; [assumption|apply identifier_name_plain; assumption].
Qed.

Lemma lookup_longer (fs : filesystem) (d rest : str) (n : node) :
  rest <> [] ->
  lookup ((d ++ rest, n) :: fs) d = lookup fs d.
Proof.
  intros Hr. cbn [lookup]. rewrite str_eqb_length; [reflexivity|].
  rewrite length_app. destruct rest; [contradiction|]. cbn [length]. lia.
Qed.


Lemma comprehension_in {A B} (f : A -> result B) (l : list A) (rs : list B) (a : A) :
  comprehension f l = Ok rs -> In a l -> exists b, f a = Ok b /\ In b rs.
Proof.
  revert rs; induction l as [|x l IH]; intros rs E Hin; [contradiction|].
  cbn [comprehension] in E.
  destruct (f x) as [b|e] eqn:Ex; [|discriminate]. cbn [bind] in E.
  destruct (comprehension f l) as [bs|e] eqn:El; [|discriminate].
  cbn [bind] in E. apply Ok_inj in E; subst rs.
  destruct Hin as [->|Hin].
  - exists b. split; [assumption|left; reflexivity].
  - destruct (IH bs eq_refl Hin) as (b' & Hb & Hin'). exists b'.
    split; [assumption|right; assumption].
Qed.

(** The names that [list_qr_codes] returns. *)
Lemma list_qr_codes_in (d : str) (fs : filesystem) (f : str) :
  In f (filter (endswith (lit ".png")) (children d fs)) <->
  plain_name f /\ endswith (lit ".png") f = true
  /\ exists_ fs (d ++ lit "/" ++ f) = true.
Proof.
  rewrite filter_In, children_in. split.
  - intros [(p & n & Hin & Hc) He]. apply child_name_inv in Hc as [-> Hp].
    repeat split; try assumption; try apply Hp.
    eapply in_lookup; eassumption.
  - intros (Hp & He & Hx). split; [|assumption].
    unfold exists_ in Hx. destruct (lookup fs (d ++ lit "/" ++ f)) as [n|] eqn:El;
      [|discriminate].
    exists (d ++ lit "/" ++ f), n. split; [apply lookup_in; assumption|].
    apply child_name_join; assumption.
Qed.

(** X8. [list_qr_codes] never changes the store.  On a missing directory it
    raises [OSError]; otherwise the names it returns are exactly the names,
    ending in [.png] and without a separator, of the entries that lie
    directly in the directory, and each of them is its own first part,
    without the last four characters, followed by [.png]. *)
Theorem list_qr_codes_names (d : str) (fs : filesystem) :
  snd (list_qr_codes d fs) = fs
  /\ (is_dir fs d = false ->
      fst (list_qr_codes d fs) = Raise (OSError "No such file or directory"))
  /\ (is_dir fs d = true ->
      exists names,
        fst (list_qr_codes d fs) = Ok names
        /\ (forall f, In f names <->
                      plain_name f /\ endswith (lit ".png") f = true
                      /\ exists_ fs (d ++ lit "/" ++ f) = true)
        /\ Forall (fun f => f = drop_last4 f ++ lit ".png") names).
Proof.
  unfold list_qr_codes, os_listdir, mbind, ret.
  destruct (is_dir fs d); cbn [fst snd]; repeat split; try discriminate.
  intros _. eexists. split; [reflexivity|]. split.
  - intros f. apply list_qr_codes_in.
  - apply Forall_forall. intros f Hin. apply filter_In in Hin as [_ He].
    apply endswith_png; assumption.
Qed.



(** X10. After a Create that returned, the listing has the file of the
    identifier, and whenever the List endpoint then returns, its answer has
    the entry of that file, with the normalized URL as [qr_code_url]. *)
Theorem create_then_list (request : QRCodeRequest) (fs fs1 : filesystem) (r1 : response) :
  proper_directory (QR_DIRECTORY cfg) ->
  is_dir fs (QR_DIRECTORY cfg) = true ->
  create_qr_code cfg request fs = (Ok r1, fs1) ->
  exists id n names,
    encode_url_to_filename (url request) = Ok id
    /\ validate_and_sanitize_url (url request) = Ok n
    /\ list_qr_codes (QR_DIRECTORY cfg) fs1 = (Ok names, fs1)
    /\ In (id ++ lit ".png") names
    /\ (forall r, fst (list_qr_codes_endpoint cfg fs1) = Ok r ->
          exists rs, r = ModelList 200 rs
                     /\ In (listed cfg (id ++ lit ".png") n) rs).
Proof.
  intros Hd Hdir Hc.
  destruct (encode_url_to_filename (url request)) as [id|e] eqn:E.
  2:{ unfold create_qr_code, mbind, lift in Hc. rewrite E in Hc. discriminate. }
  destruct (encode_url_to_filename_inv _ _ E) as (n & data & Hv & He & Ho & Hid).
  assert (Hsafe : forallb urlsafe_char id = true).
  { subst id. apply forallb_forall. intros c Hin.
    pose proof (identifier_chars data Ho) as Hc'.
    rewrite Forall_forall in Hc'. apply Hc'; assumption. }
  pose proof (identifier_name_plain id Hsafe) as Hplain.
  pose proof (artifact_path_proper id Hd Hsafe) as Hpath.
  assert (Hfs1 : exists_ fs1 (artifact_path cfg id) = true
                 /\ is_dir fs1 (QR_DIRECTORY cfg) = true).
  { rewrite (create_qr_code_encoded request id fs E) in Hc.
    destruct (exists_ fs (artifact_path cfg id)) eqn:Ex.
    { injection Hc as _ <-. split; assumption. }
    destruct (qrcode_make _ _ _ _) as [img|e]; [|discriminate].
    destruct (save_outcome img _ fs Ex) as [Es|[e Es]]; rewrite Es in Hc;
      [|discriminate].
    injection Hc as _ <-. split.
    - unfold exists_. cbn [lookup]. rewrite str_eqb_refl. reflexivity.
    - unfold is_dir. rewrite Hpath, lookup_longer by discriminate. exact Hdir. }
  destruct Hfs1 as [Hx1 Hd1]. rewrite Hpath in Hx1.
  assert (Hin : In (id ++ lit ".png")
                  (filter (endswith (lit ".png")) (children (QR_DIRECTORY cfg) fs1))).
  { apply list_qr_codes_in. repeat split; try apply Hplain; try assumption.
    apply endswith_png_app. }
  exists id, n, (filter (endswith (lit ".png")) (children (QR_DIRECTORY cfg) fs1)).
  split; [reflexivity|]. split; [assumption|].
  split; [unfold list_qr_codes, os_listdir, mbind, ret; rewrite Hd1; reflexivity|].
  split; [assumption|].
  intros r. unfold list_qr_codes_endpoint, list_qr_codes, os_listdir, mbind, ret, lift.
  rewrite Hd1.
  destruct (filter (endswith (lit ".png")) (children (QR_DIRECTORY cfg) fs1))
    as [|f names'] eqn:En; [contradiction|].
  destruct (comprehension (list_entry cfg) (f :: names')) as [rs|e] eqn:Ec;
    cbn [fst]; [|discriminate].
  intros Er; apply Ok_inj in Er; subst r. exists rs. split; [reflexivity|].
  destruct (comprehension_in _ _ _ _ Ec Hin) as (b & Hb & Hinb).
  rewrite list_entry_eq, drop_last4_png in Hb. subst id.
  rewrite (decode_identifier n data He) in Hb. cbn [bind] in Hb.
  apply Ok_inj in Hb; subst b. assumption.
Qed.

End EndpointExtras.

Section DeleteExtras.
Context `{Externals} (cfg : Config).


Lemma path_in_absolute_store (name : str) :
  startswith (lit "/") (QR_DIRECTORY cfg) = true ->
  startswith (lit "/") (Path_truediv (QR_DIRECTORY cfg) name) = true.
Proof.
  intros Habs. unfold Path_truediv, os_path.join.
  destruct (startswith (lit "/") name) eqn:E; [assumption|].
  destruct (_ || _); apply startswith_slash_app; assumption.
Qed.

(** X12. With an absolute store directory, Delete on the name of a stored file
    answers 204 and removes that file and nothing else: the path is gone,
    every other path keeps its node, the next listing has the same names but
    this one, and a second Delete on the name answers 404. *)
Theorem delete_in_absolute_store (name : str) (fs : filesystem) :
  startswith (lit "/") (QR_DIRECTORY cfg) = true ->
  proper_directory (QR_DIRECTORY cfg) ->
  plain_name name ->
  is_dir fs (QR_DIRECTORY cfg) = true ->
  is_file fs (QR_DIRECTORY cfg ++ lit "/" ++ name) = true ->
  exists fs1 names names1,
    delete_qr_code_endpoint cfg name fs = (Ok (Response 204), fs1)
    /\ exists_ fs1 (QR_DIRECTORY cfg ++ lit "/" ++ name) = false
    /\ (forall q, q <> QR_DIRECTORY cfg ++ lit "/" ++ name ->
                  lookup fs1 q = lookup fs q)
    /\ fst (list_qr_codes (QR_DIRECTORY cfg) fs) = Ok names
    /\ fst (list_qr_codes (QR_DIRECTORY cfg) fs1) = Ok names1
    /\ (forall f, In f names1 <-> In f names /\ f <> name)
    /\ delete_qr_code_endpoint cfg name fs1 = (Raise NotFound, fs1).
Proof.
  intros Habs Hd Hn Hdir Hf.
  set (path := QR_DIRECTORY cfg ++ lit "/" ++ name) in *.
  assert (Hpath : Path_truediv (QR_DIRECTORY cfg) name = path)
    by (apply join_proper; assumption).
  assert (Hdel : delete_qr_code_endpoint cfg name fs
                 = (Ok (Response 204), unlink fs path)).
  { unfold delete_qr_code_endpoint, delete_qr_code, mbind, ret, os_remove.
    pose proof (path_in_absolute_store name Habs) as Hp.
    rewrite (startswith_slash_join _ _ Hp), Hpath, Hf. cbn [negb].
    assert (He : exists_ fs path = true).
    { unfold exists_, is_file in *. destruct (lookup fs path); [reflexivity|discriminate]. }
    rewrite He. reflexivity. }
  assert (Hgone : lookup (unlink fs path) path = None) by apply lookup_unlink.
  assert (Hdir1 : is_dir (unlink fs path) (QR_DIRECTORY cfg) = true).
  { unfold is_dir in *. rewrite lookup_unlink_other; [assumption|].
    intros E. apply (f_equal (@length Z)) in E. unfold path in E.
    rewrite !length_app in E. cbn [length lit] in E. cbn in E. lia. }
  exists (unlink fs path),
    (filter (endswith (lit ".png")) (children (QR_DIRECTORY cfg) fs)),
    (filter (endswith (lit ".png")) (children (QR_DIRECTORY cfg) (unlink fs path))).
  split; [assumption|].
  split; [unfold exists_; rewrite Hgone; reflexivity|].
  split; [intros q Hq; apply lookup_unlink_other; assumption|].
  split; [unfold list_qr_codes, os_listdir, mbind, ret; rewrite Hdir; reflexivity|].
  split; [unfold list_qr_codes, os_listdir, mbind, ret; rewrite Hdir1; reflexivity|].
  split.
  - intros f. rewrite !list_qr_codes_in. split.
    + intros (Hp & He & Hx). assert (Hne : f <> name).
      { intros ->. fold path in Hx. unfold exists_ in Hx. rewrite Hgone in Hx.
        discriminate. }
      repeat split; try apply Hp; try assumption.
      unfold exists_ in *. rewrite lookup_unlink_other in Hx; [assumption|].
      unfold path. intros E. apply app_inv_head in E. apply app_inv_head in E.
      contradiction.
    + intros [(Hp & He & Hx) Hne]. repeat split; try apply Hp; try assumption.
      unfold exists_ in *. rewrite lookup_unlink_other; [assumption|].
      unfold path. intros E. apply app_inv_head in E. apply app_inv_head in E.
      contradiction.
  - apply delete_absent_not_found. rewrite Hpath. unfold is_file. rewrite Hgone.
    reflexivity.
Qed.

End DeleteExtras.

Lemma dict_get_set_same {V} (d : @dict V) (k : str) (v : V) :
  dict_get (dict_set d k v) k = Some v.
Proof.
  induction d as [|[k' v'] d IH]; cbn [dict_set dict_get].
  - rewrite str_eqb_refl. reflexivity.
  - destruct (str_eqb k' k) eqn:E; cbn [dict_get]; rewrite E; [reflexivity|exact IH].
Qed.



Section TokenTheorems.
Context `{TokenExternals} (tcfg : TokenConfig).

(** X15. The expiry of a token: the [exp] claim that [create_access_token]
    signs is the current time plus the given delta.  A zero delta counts as
    none: the expiry is then 15 minutes ahead, as without a delta, not now.
    When the addition raises, so does [create_access_token]. *)
Theorem access_token_expiry (data : dict) (expires_delta : option timedelta)
    (utcnow : datetime) :
  (forall claims,
     access_token_claims data expires_delta utcnow = Ok claims ->
     exists expire,
       datetime_add utcnow (delta_or_default expires_delta) = Ok expire
       /\ dict_get claims (lit "exp") = Some (of_datetime expire))
  /\ (forall d, timedelta_bool d = true -> delta_or_default (Some d) = d)
  /\ (forall d, timedelta_bool d = false ->
        create_access_token tcfg data (Some d) utcnow
        = create_access_token tcfg data None utcnow)
  /\ (forall e, datetime_add utcnow (delta_or_default expires_delta) = Raise e ->
        create_access_token tcfg data expires_delta utcnow = Raise e).
Proof.
  split; [|split; [|split]].
  - intros claims Hc. unfold access_token_claims in Hc.
    destruct (datetime_add utcnow (delta_or_default expires_delta)) as [expire|e];
      [|discriminate].
    cbn [bind] in Hc. apply Ok_inj in Hc; subst claims.
    exists expire. split; [reflexivity|apply dict_get_set_same].
  - intros d Hd. unfold delta_or_default. rewrite Hd. reflexivity.
  - intros d Hd. unfold create_access_token, access_token_claims, delta_or_default.
    rewrite Hd. reflexivity.
  - intros e He. unfold create_access_token, access_token_claims. rewrite He.
    reflexivity.
Qed.


End TokenTheorems.

(** ** The helpers of [qr_service] on their own *)

Section ServiceExtras.
Context `{Externals}.

Lemma lookup_cons_other (fs : filesystem) (path q : str) (n : node) :
  q <> path -> lookup ((path, n) :: fs) q = lookup fs q.
Proof.
  intros N. cbn [lookup]. rewrite str_eqb_neq by congruence. reflexivity.
Qed.

(** X13. [delete_qr_code], handed a name and a directory, works on the path
    [os.path.join(directory, file_name)]: it returns [True] exactly when that
    path is a file, and then removes it; it returns [False], and changes
    nothing, exactly when nothing is there; on a directory it raises.
    Whenever it returns, nothing is at the path afterwards, and every other
    path keeps its node. *)
Theorem delete_qr_code_contract (file_name directory : str) (fs : filesystem) :
  let target := os_path.join directory file_name in
  let out := delete_qr_code file_name directory fs in
  (fst out = Ok true <-> is_file fs target = true)
  /\ (fst out = Ok false <-> exists_ fs target = false)
  /\ (fst out = Ok false -> snd out = fs)
  /\ (is_ok (fst out) = true -> exists_ (snd out) target = false)
  /\ (forall q, q <> target -> lookup (snd out) q = lookup fs q).
Proof.
  intros target out. subst out.
  unfold delete_qr_code, mbind, ret, os_remove. fold target.
  unfold exists_, is_file.
  destruct (lookup fs target) as [[img|]|] eqn:E; cbn [fst snd is_ok].
  - repeat split; try discriminate; auto.
    + intros _. rewrite lookup_unlink. reflexivity.
    + intros q Hq. apply lookup_unlink_other; assumption.
  - repeat split; try discriminate; auto.
  - repeat split; try discriminate; auto.
    intros _. rewrite E. reflexivity.
Qed.

(** X14. [generate_qr_code] either raises and leaves the store as it was, or
    returns with the rendered image as the file at [path], in the place of
    whatever file was there; every other path keeps its node in both
    cases. *)
Theorem generate_qr_code_frame (data path fill_color back_color : str) (size : Z)
    (fs : filesystem) :
  let out := generate_qr_code data path fill_color back_color size fs in
  (is_ok (fst out) = false -> snd out = fs)
  /\ (is_ok (fst out) = true ->
      exists img,
        qrcode_make data fill_color back_color size = Ok img
        /\ lookup (snd out) path = Some (File img))
  /\ (forall q, q <> path -> lookup (snd out) q = lookup fs q).
Proof.
  intros out. subst out. unfold generate_qr_code, mbind, lift, save.
  destruct (qrcode_make data fill_color back_color size) as [img|e];
    cbn [fst snd is_ok]; [|repeat split; try discriminate; auto].
  destruct (is_dir fs path); cbn [fst snd is_ok];
    [repeat split; try discriminate; auto|].
  destruct (_ || _); cbn [fst snd is_ok];
    [|repeat split; try discriminate; auto].
  repeat split; try discriminate.
  - intros _. exists img. split; [reflexivity|]. cbn [lookup].
    rewrite str_eqb_refl. reflexivity.
  - intros q Hq. rewrite lookup_cons_other by assumption.
    apply lookup_unlink_other; assumption.
Qed.

End ServiceExtras.

(** ** The further properties on concrete input *)

Lemma identifier_is_filename_safe_witness :
  exists id,
    @encode_url_to_filename sample_externals (lit "http://a.io") = Ok id
    /\ forallb urlsafe_char id = true
    /\ ~ In (ord "=") id /\ ~ In (ord "/") id
    /\ ~ In (ord "+") id /\ ~ In (ord ".") id.
Proof.
  eexists. split; [reflexivity|].
  apply (@identifier_is_filename_safe sample_externals (lit "http://a.io")).
  reflexivity.
Defined.


(** Eleven bytes give fifteen characters. *)
Lemma identifier_length_witness :
  exists id,
    @encode_url_to_filename sample_externals (lit "http://a.io") = Ok id
    /\ len id = (4 * len (lit "http://a.io") + 2) / 3
    /\ len id mod 4 <> 1.
Proof.
  apply (@identifier_length sample_externals (lit "http://a.io") (lit "http://a.io")
           (lit "http://a.io")); reflexivity.
Defined.

Lemma decode_ignores_appended_pads_witness :
  @encode_url_to_filename sample_externals (lit "http://a.io")
  = Ok (lit "aHR0cDovL2EuaW8")
  /\ decode_filename_to_url (lit "aHR0cDovL2EuaW8" ++ str_mul (lit "=") 2)
     = @validate_and_sanitize_url sample_externals (lit "http://a.io").
Proof.
  split; [reflexivity|].
  apply (@decode_ignores_appended_pads sample_externals (lit "http://a.io")).
  reflexivity.
Defined.

(** A name that does not end in [.png], and a name that does not decode. *)
Lemma generate_links_on_any_name_witness :
  generate_links (lit "create") (lit "YWJj.txt") (lit "http://x") (lit "http://x/d")
  = Ok [ {| rel := lit "view"; href := lit "http://x/d";
            action := lit "GET"; type := lit "image/png" |};
         {| rel := lit "delete"; href := lit "http://x/qr-codes/YWJj.txt";
            action := lit "DELETE"; type := lit "application/json" |} ]
  /\ exists e,
       generate_links (lit "list") (lit "a.png") (lit "http://x") (lit "http://x/d")
       = Raise e
       /\ MalformedIdentifier e.
Proof.
  destruct (generate_links_on_any_name (lit "create") (lit "YWJj.txt")
              (lit "http://x") (lit "http://x/d") (or_introl eq_refl))
    as (_ & H2 & _).
  destruct (generate_links_on_any_name (lit "list") (lit "a.png")
              (lit "http://x") (lit "http://x/d") (or_intror eq_refl))
    as (H1 & _).
  split; [apply H2; reflexivity|].
  eexists. apply H1. reflexivity.
Defined.

Lemma create_only_adds_witness :
  let request := {| url := lit "http://a.io"; size := 10 |} in
  exists r fs1,
    @create_qr_code sample_externals default_config request empty_store = (r, fs1)
    /\ (is_ok r = false -> fs1 = empty_store)
    /\ (fs1 = empty_store
        \/ exists id img,
             @encode_url_to_filename sample_externals (url request) = Ok id
             /\ exists_ empty_store (artifact_path default_config id) = false
             /\ @qrcode_make sample_externals (url request)
                  (FILL_COLOR default_config) (BACK_COLOR default_config)
                  (size request) = Ok img
             /\ fs1 = (artifact_path default_config id, File img) :: empty_store
             /\ r = Ok (Model 201
                          {| message := lit "QR code created successfully.";
                             qr_code_url := download_url_of default_config id;
                             links := created_links default_config id |})).
Proof.
  intros request. eexists. eexists. split.
  - vm_compute. reflexivity.
  - apply (@create_only_adds sample_externals default_config request empty_store).
    reflexivity.
Defined.


Lemma create_then_list_witness :
  let request := {| url := lit "http://a.io"; size := 10 |} in
  exists r1 fs1,
    @create_qr_code sample_externals default_config request empty_store = (Ok r1, fs1)
    /\ exists id n names,
         @encode_url_to_filename sample_externals (url request) = Ok id
         /\ @validate_and_sanitize_url sample_externals (url request) = Ok n
         /\ list_qr_codes (QR_DIRECTORY default_config) fs1 = (Ok names, fs1)
         /\ In (id ++ lit ".png") names
         /\ (forall r, fst (list_qr_codes_endpoint default_config fs1) = Ok r ->
               exists rs, r = ModelList 200 rs
                          /\ In (listed default_config (id ++ lit ".png") n) rs).
Proof.
  intros request. eexists. eexists. split.
  - vm_compute. reflexivity.
  - eapply (@create_then_list sample_externals default_config request empty_store).
    + split; [discriminate|reflexivity].
    + reflexivity.
    + vm_compute. reflexivity.
Defined.

Lemma delete_in_absolute_store_witness :
  exists fs1 names names1,
    delete_qr_code_endpoint absolute_config (lit "YWJj.png") absolute_store
    = (Ok (Response 204), fs1)
    /\ exists_ fs1 (QR_DIRECTORY absolute_config ++ lit "/" ++ lit "YWJj.png") = false
    /\ (forall q, q <> QR_DIRECTORY absolute_config ++ lit "/" ++ lit "YWJj.png" ->
                  lookup fs1 q = lookup absolute_store q)
    /\ fst (list_qr_codes (QR_DIRECTORY absolute_config) absolute_store) = Ok names
    /\ fst (list_qr_codes (QR_DIRECTORY absolute_config) fs1) = Ok names1
    /\ (forall f, In f names1 <-> In f names /\ f <> lit "YWJj.png")
    /\ delete_qr_code_endpoint absolute_config (lit "YWJj.png") fs1
       = (Raise NotFound, fs1).
Proof.
  apply (@delete_in_absolute_store sample_externals absolute_config (lit "YWJj.png")
           absolute_store).
  - reflexivity.
  - split; [discriminate|reflexivity].
  - split; [discriminate|reflexivity].
  - reflexivity.
  - reflexivity.
Defined.
